(** * calender_bot: the event-normalization pipeline

    A shallow embedding of [mcp_calendar.py] (class [MCPCalendarManager]) and
    of the batch and orchestration methods of [app.py] (class
    [EventScrapingAgent]), with the parts of Python they rest on: dynamically
    typed field values, exceptions, and the [datetime] operations
    [fromisoformat], [isoformat] and [+ timedelta]. *)

From Stdlib Require Import ZArith Lia Bool List Ascii String.
From stdpp Require Import gmap strings.

Local Open Scope Z_scope.

(** ** Python values, exceptions and the exception monad *)

Module Py.

(** The exception classes the pipeline can meet.  All of them derive from
    [Exception], so an [except Exception] clause catches each one;
    [OtherException] stands for any further subclass a collaborator raises. *)
Inductive PyExn : Type :=
  | ValueError
  | TypeError
  | OverflowError
  | KeyError
  | OtherException (name : string).

(** A computation either returns a value or raises. *)
Inductive Res (A : Type) : Type :=
  | Ok (a : A)
  | Raise (e : PyExn).
Arguments Ok {A} a.
Arguments Raise {A} e.

Definition bind {A B} (m : Res A) (k : A -> Res B) : Res B :=
  match m with
  | Ok a => k a
  | Raise e => Raise e
  end.

(** [try: body / except cls: handler], with [catches e] telling whether the
    clause's class covers the exception [e]. *)
Definition try_except {A} (body : Res A) (catches : PyExn -> bool)
    (handler : PyExn -> Res A) : Res A :=
  match body with
  | Ok a => Ok a
  | Raise e => if catches e then handler e else Raise e
  end.

Definition is_ValueError (e : PyExn) : bool :=
  match e with ValueError => true | _ => false end.

(** Every modelled class is a subclass of [Exception]. *)
Definition is_Exception (e : PyExn) : bool := true.

Definition returns {A} (m : Res A) : bool :=
  match m with Ok _ => true | Raise _ => false end.

(** The values a field of an event dictionary holds.  The events come out
    of [json.loads]; the scalars it produces are modelled: [null], booleans,
    integers and strings.  Floats and nested arrays or objects are left
    out. *)
Inductive PyVal : Type :=
  | VNone
  | VBool (b : bool)
  | VInt (n : Z)
  | VStr (s : string).

(** [bool(v)], the test behind [if v:] and [not v]. *)
Definition truthy (v : PyVal) : bool :=
  match v with
  | VNone => false
  | VBool b => b
  | VInt n => negb (n =? 0)
  | VStr s => negb (String.eqb s "")
  end.

Definition digit_char (d : Z) : ascii :=
  ascii_of_N (Z.to_N (48 + d)).

(** The decimal digits of a positive number, most significant first. *)
Fixpoint pos_digits (fuel : nat) (n : Z) (acc : string) : string :=
  match fuel with
  | O => acc
  | S fuel' =>
      let acc' := String (digit_char (n mod 10)) acc in
      if n / 10 =? 0 then acc' else pos_digits fuel' (n / 10) acc'
  end.

Definition str_of_int (n : Z) : string :=
  if n =? 0 then "0"
  else if n <? 0 then "-" +:+ pos_digits (Z.to_nat (Z.log2 (- n)) + 1) (- n) ""
  else pos_digits (Z.to_nat (Z.log2 n) + 1) n "".

(** [str(v)], which is what an f-string placeholder [{v}] inserts. *)
Definition py_str (v : PyVal) : string :=
  match v with
  | VNone => "None"
  | VBool true => "True"
  | VBool false => "False"
  | VInt n => str_of_int n
  | VStr s => s
  end.

(** [a += b] with [b] a [str]: concatenation on strings, [TypeError] on the
    other scalars. *)
Definition iadd_str (a : PyVal) (b : string) : Res PyVal :=
  match a with
  | VStr s => Ok (VStr (s +:+ b))
  | _ => Raise TypeError
  end.

(** [d[key]]: a missing key raises [KeyError]. *)
Definition getitem (d : gmap string PyVal) (key : string) : Res PyVal :=
  match d !! key with
  | Some v => Ok v
  | None => Raise KeyError
  end.

(** [d.get(key)]: [None] when the key is missing. *)
Definition dict_get (d : gmap string PyVal) (key : string) : PyVal :=
  default VNone (d !! key).

(** [d.get(key, dflt)]: the default only replaces a missing key. *)
Definition dict_get_default (d : gmap string PyVal) (key : string)
    (dflt : PyVal) : PyVal :=
  default dflt (d !! key).

End Py.

Notation "'do' x <- m ; k" := (Py.bind m (fun x => k))
  (at level 10, x name, m at level 100, k at level 200).

(** ** The [datetime] module of the Python standard library

    The pipeline calls [datetime.fromisoformat], [datetime + timedelta] and
    [datetime.isoformat].  The parser follows the grammar the library
    documents for [fromisoformat],
    [YYYY-MM-DD[*HH[:MM[:SS[.fff[fff]]]][+HH:MM[:SS[.ffffff]]]]] with [*] any
    one character, structured as the reference implementation
    [Lib/datetime.py] is; later interpreter versions accept further ISO 8601
    spellings on top of it.  The calendar arithmetic is that of
    [Lib/datetime.py] ([_ymd2ord], [_ord2ymd], [datetime.__add__]). *)

Module Datetime.
Import Py.

(** A [datetime] value; [tzinfo] is the fixed UTC offset in microseconds of
    an aware value ([timezone(offset)]) and [None] for a naive one. *)
Record datetime : Type := mk_datetime {
  year : Z; month : Z; day : Z;
  hour : Z; minute : Z; second : Z; microsecond : Z;
  tzinfo : option Z
}.

(** A normalised [timedelta]. *)
Record timedelta : Type := mk_timedelta {
  td_days : Z; td_seconds : Z; td_microseconds : Z
}.

Definition MINYEAR : Z := 1.
Definition MAXYEAR : Z := 9999.
Definition _MAXORDINAL : Z := 3652059.
Definition _DI400Y : Z := 146097.
Definition _DI100Y : Z := 36524.
Definition _DI4Y : Z := 1461.

Definition _is_leap (y : Z) : bool :=
  (y mod 4 =? 0) && (negb (y mod 100 =? 0) || (y mod 400 =? 0)).

Definition _DAYS_IN_MONTH (m : Z) : Z :=
  match m with
  | 1 => 31 | 2 => 28 | 3 => 31 | 4 => 30 | 5 => 31 | 6 => 30
  | 7 => 31 | 8 => 31 | 9 => 30 | 10 => 31 | 11 => 30 | 12 => 31
  | _ => -1
  end.

Definition _DAYS_BEFORE_MONTH (m : Z) : Z :=
  match m with
  | 1 => 0 | 2 => 31 | 3 => 59 | 4 => 90 | 5 => 120 | 6 => 151
  | 7 => 181 | 8 => 212 | 9 => 243 | 10 => 273 | 11 => 304 | 12 => 334
  | _ => -1
  end.

Definition _days_before_year (y : Z) : Z :=
  let y1 := y - 1 in y1 * 365 + y1 / 4 - y1 / 100 + y1 / 400.

Definition _days_in_month (y m : Z) : Z :=
  if (m =? 2) && _is_leap y then 29 else _DAYS_IN_MONTH m.

Definition _days_before_month (y m : Z) : Z :=
  _DAYS_BEFORE_MONTH m + (if (2 <? m) && _is_leap y then 1 else 0).

Definition _ymd2ord (y m d : Z) : Z :=
  _days_before_year y + _days_before_month y m + d.

Definition _ord2ymd (n0 : Z) : Z * Z * Z :=
  let n := n0 - 1 in
  let n400 := n / _DI400Y in
  let n := n mod _DI400Y in
  let y := n400 * 400 + 1 in
  let n100 := n / _DI100Y in
  let n := n mod _DI100Y in
  let n4 := n / _DI4Y in
  let n := n mod _DI4Y in
  let n1 := n / 365 in
  let n := n mod 365 in
  let y := y + n100 * 100 + n4 * 4 + n1 in
  if (n1 =? 4) || (n100 =? 4) then (y - 1, 12, 31)
  else
    let leapyear := (n1 =? 3) && (negb (n4 =? 24) || (n100 =? 3)) in
    let m := Z.shiftr (n + 50) 5 in
    let preceding :=
      _DAYS_BEFORE_MONTH m + (if (2 <? m) && leapyear then 1 else 0) in
    let '(m, preceding) :=
      if n <? preceding
      then (m - 1,
            preceding
            - (_DAYS_IN_MONTH (m - 1)
               + (if (m - 1 =? 2) && leapyear then 1 else 0)))
      else (m, preceding) in
    (y, m, n - preceding + 1).

(** The field checks of the [datetime] constructor ([_check_date_fields],
    [_check_time_fields]); a failed check raises [ValueError]. *)
Definition check_date_fields (y m d : Z) : bool :=
  (MINYEAR <=? y) && (y <=? MAXYEAR) && (1 <=? m) && (m <=? 12)
  && (1 <=? d) && (d <=? _days_in_month y m).

Definition check_time_fields (h mi s us : Z) : bool :=
  (0 <=? h) && (h <=? 23) && (0 <=? mi) && (mi <=? 59)
  && (0 <=? s) && (s <=? 59) && (0 <=? us) && (us <=? 999999).

Definition new_datetime (y m d h mi s us : Z) (tz : option Z) : Res datetime :=
  if check_date_fields y m d && check_time_fields h mi s us
  then Ok (mk_datetime y m d h mi s us tz)
  else Raise ValueError.

(** *** Parsing *)

Definition digit_val (c : ascii) : option Z :=
  let n := Z.of_N (N_of_ascii c) in
  if (48 <=? n) && (n <=? 57) then Some (n - 48) else None.

(** Read exactly [k] decimal digits. *)
Fixpoint parse_digits (k : nat) (s : string) (acc : Z) : option (Z * string) :=
  match k with
  | O => Some (acc, s)
  | S k' =>
      match s with
      | String c r =>
          match digit_val c with
          | Some d => parse_digits k' r (acc * 10 + d)
          | None => None
          end
      | EmptyString => None
      end
  end.

Definition expect_char (c : ascii) (s : string) : option string :=
  match s with
  | String c' r => if Ascii.eqb c c' then Some r else None
  | EmptyString => None
  end.

(** [_parse_isoformat_date] on the first ten characters; also hands back
    what follows them. *)
Definition _parse_isoformat_date (s : string) : option (Z * Z * Z * string) :=
  match parse_digits 4 s 0 with
  | None => None
  | Some (y, r) =>
    match expect_char "-" r with
    | None => None
    | Some r =>
      match parse_digits 2 r 0 with
      | None => None
      | Some (m, r) =>
        match expect_char "-" r with
        | None => None
        | Some r =>
          match parse_digits 2 r 0 with
          | None => None
          | Some (d, r) => Some (y, m, d, r)
          end
        end
      end
    end
  end.

(** The fraction [fff] or [ffffff] that ends a time, in microseconds. *)
Definition parse_fraction (f : string) : option Z :=
  match String.length f with
  | 3%nat =>
      match parse_digits 3 f 0 with
      | Some (us, _) => Some (us * 1000)
      | None => None
      end
  | 6%nat =>
      match parse_digits 6 f 0 with
      | Some (us, _) => Some us
      | None => None
      end
  | _ => None
  end.

(** [_parse_hh_mm_ss_ff]: the whole of [t] must read as
    [HH[:MM[:SS[.fff[fff]]]]]. *)
Definition _parse_hh_mm_ss_ff (t : string) : option (Z * Z * Z * Z) :=
  match parse_digits 2 t 0 with
  | None => None
  | Some (hh, EmptyString) => Some (hh, 0, 0, 0)
  | Some (hh, String c1 r1) =>
    if negb (Ascii.eqb c1 ":") then None else
    match parse_digits 2 r1 0 with
    | None => None
    | Some (mm, EmptyString) => Some (hh, mm, 0, 0)
    | Some (mm, String c2 r2) =>
      if negb (Ascii.eqb c2 ":") then None else
      match parse_digits 2 r2 0 with
      | None => None
      | Some (ss, EmptyString) => Some (hh, mm, ss, 0)
      | Some (ss, String c3 f) =>
        if negb (Ascii.eqb c3 ".") then None else
        match parse_fraction f with
        | Some us => Some (hh, mm, ss, us)
        | None => None
        end
      end
    end
  end.

(** [tstr.find(c)]: the text before and after the first [c]. *)
Fixpoint split_at (c : ascii) (s : string) : option (string * string) :=
  match s with
  | EmptyString => None
  | String c' r =>
      if Ascii.eqb c c' then Some (EmptyString, r)
      else match split_at c r with
           | Some (a, b) => Some (String c' a, b)
           | None => None
           end
  end.

(** The offset of [timezone(td)] must lie strictly within a day. *)
Definition DAY_US : Z := 86400000000.

Definition parse_tz (sign : Z) (tzstr : string) : option Z :=
  let len := Z.of_nat (String.length tzstr) in
  if negb ((len =? 5) || (len =? 8) || (len =? 15)) then None else
  match _parse_hh_mm_ss_ff tzstr with
  | None => None
  | Some (h, mi, s, us) =>
      let off := sign * (((h * 60 + mi) * 60 + s) * 1000000 + us) in
      if (- DAY_US <? off) && (off <? DAY_US) then Some off else None
  end.

(** [_parse_isoformat_time]: the time is split at the first ["-"] or, when
    there is none, at the first ["+"]. *)
Definition _parse_isoformat_time (t : string)
    : option (Z * Z * Z * Z * option Z) :=
  let parts :=
    match split_at "-" t with
    | Some (a, b) => (a, Some (-1, b))
    | None =>
        match split_at "+" t with
        | Some (a, b) => (a, Some (1, b))
        | None => (t, None)
        end
    end in
  match _parse_hh_mm_ss_ff (fst parts) with
  | None => None
  | Some (h, mi, s, us) =>
      match snd parts with
      | None => Some (h, mi, s, us, None)
      | Some (sign, tzstr) =>
          match parse_tz sign tzstr with
          | Some off => Some (h, mi, s, us, Some off)
          | None => None
          end
      end
  end.

(** [datetime.fromisoformat] on a [str]. *)
Definition fromisoformat (s : string) : Res datetime :=
  match _parse_isoformat_date s with
  | None => Raise ValueError
  | Some (y, m, d, EmptyString) => new_datetime y m d 0 0 0 0 None
  | Some (y, m, d, String _sep t) =>
      match _parse_isoformat_time t with
      | None => Raise ValueError
      | Some (h, mi, s, us, tz) => new_datetime y m d h mi s us tz
      end
  end.

(** [datetime.fromisoformat] on any value: the argument must be a [str]. *)
Definition py_fromisoformat (v : PyVal) : Res datetime :=
  match v with
  | VStr s => fromisoformat s
  | _ => Raise TypeError
  end.

(** *** Printing *)

(** [%0wd] for a number below [10^w]. *)
Fixpoint zpad (w : nat) (n : Z) : string :=
  match w with
  | O => EmptyString
  | S w' => zpad w' (n / 10) +:+ String (digit_char (n mod 10)) EmptyString
  end.

(** [_format_offset]. *)
Definition _format_offset (tz : option Z) : string :=
  match tz with
  | None => EmptyString
  | Some off =>
      let sign := if off <? 0 then "-" else "+" in
      let a := Z.abs off in
      let hh := a / 3600000000 in
      let r := a mod 3600000000 in
      let mm := r / 60000000 in
      let ss := r mod 60000000 in
      sign +:+ zpad 2 hh +:+ ":" +:+ zpad 2 mm
      +:+ (if ss =? 0 then EmptyString
           else ":" +:+ zpad 2 (ss / 1000000)
                +:+ (if ss mod 1000000 =? 0 then EmptyString
                     else "." +:+ zpad 6 (ss mod 1000000)))
  end.

(** [datetime.isoformat()] with the default separator and [timespec]. *)
Definition isoformat (d : datetime) : string :=
  zpad 4 (year d) +:+ "-" +:+ zpad 2 (month d) +:+ "-" +:+ zpad 2 (day d)
  +:+ "T" +:+ zpad 2 (hour d) +:+ ":" +:+ zpad 2 (minute d)
  +:+ ":" +:+ zpad 2 (second d)
  +:+ (if microsecond d =? 0 then EmptyString
       else "." +:+ zpad 6 (microsecond d))
  +:+ _format_offset (tzinfo d).

(** *** Arithmetic *)

(** [timedelta(days, hours=, minutes=, seconds=, microseconds=)]: the
    constructor normalises to days, seconds below a day and microseconds
    below a second. *)
Definition mk_delta (days hours minutes seconds microseconds : Z) : timedelta :=
  let total :=
    (((days * 24 + hours) * 60 + minutes) * 60 + seconds) * 1000000
    + microseconds in
  mk_timedelta (total / DAY_US) (total mod DAY_US / 1000000)
               (total mod 1000000).

Definition timedelta_add (a b : timedelta) : timedelta :=
  mk_delta (td_days a + td_days b) 0 0 (td_seconds a + td_seconds b)
           (td_microseconds a + td_microseconds b).

Definition toordinal (d : datetime) : Z := _ymd2ord (year d) (month d) (day d).

(** [datetime.__add__]: go through the ordinal of the date, add, and come
    back; a day outside [1 .. _MAXORDINAL] raises [OverflowError]. *)
Definition datetime_add (d : datetime) (other : timedelta) : Res datetime :=
  let delta :=
    timedelta_add
      (mk_delta (toordinal d) (hour d) (minute d) (second d) (microsecond d))
      other in
  let h := td_seconds delta / 3600 in
  let rem := td_seconds delta mod 3600 in
  let mi := rem / 60 in
  let s := rem mod 60 in
  if (0 <? td_days delta) && (td_days delta <=? _MAXORDINAL) then
    let '(y, m, dd) := _ord2ymd (td_days delta) in
    Ok (mk_datetime y m dd h mi s (td_microseconds delta) (tzinfo d))
  else Raise OverflowError.

(** Microseconds elapsed on the local clock since 0001-01-01T00:00:00: the
    measure in which one hour is 3 600 000 000. *)
Definition local_instant (d : datetime) : Z :=
  (((toordinal d * 24 + hour d) * 60 + minute d) * 60 + second d) * 1000000
  + microsecond d.

End Datetime.

(** ** [mcp_calendar.py]: class [MCPCalendarManager] *)

Module MCPCalendarManager.
Import Py Datetime.

(** An event as the extractor hands it over: a dictionary from field names
    to values. *)
Abbreviation Event := (gmap string PyVal).

(** The value stored under ['start'] and ['end'] of a Google Calendar
    event: [{'date': d}] for an all-day bound, or
    [{'dateTime': s, 'timeZone': z}] for a timed one. *)
Inductive GcalTime : Type :=
  | AllDay (date : PyVal)
  | Timed (dateTime : string) (timeZone : string).

(** The dictionary [gcal_event]; ['location'] is set only on some paths. *)
Record GcalEvent : Type := mk_gcal {
  summary : PyVal;
  description : PyVal;
  start : GcalTime;
  end_ : GcalTime;
  location : option PyVal
}.

Definition required_fields : list string := ["title"; "start_date"]%string.

(** [field not in event or not event[field]] *)
Definition missing_or_empty (event : Event) (field : string) : bool :=
  match event !! field with
  | None => true
  | Some v => negb (truthy v)
  end.

Definition validate_event_data (event : Event) : Res bool :=
  if existsb (missing_or_empty event) required_fields then Ok false
  else
    try_except
      (do start_date <- getitem event "start_date";
       do _parsed <- py_fromisoformat start_date;
       Ok true)
      is_ValueError
      (fun _ => Ok false).

Definition newline : string := String (ascii_of_nat 10) EmptyString.

(** The prefix of [f"\n\nSource: {event['url']}"]. *)
Definition source_prefix : string := newline +:+ newline +:+ "Source: ".

(** [f"{date}T{time}:00"] *)
Definition combine_date_time (date time : PyVal) : string :=
  py_str date +:+ "T" +:+ py_str time +:+ ":00".

Definition format_event_for_gcal (event : Event) : Res GcalEvent :=
  let summary := dict_get_default event "title" (VStr "Untitled Event") in
  let description := dict_get_default event "description" (VStr "") in
  let start_date := dict_get event "start_date" in
  let start_time := dict_get event "start_time" in
  let start :=
    if truthy start_time
    then Timed (combine_date_time start_date start_time) "UTC"
    else AllDay start_date in
  let end_date := dict_get_default event "end_date" start_date in
  let end_time := dict_get event "end_time" in
  do end_ <-
    (if truthy end_time
     then Ok (Timed (combine_date_time end_date end_time) "UTC")
     else if truthy start_time
     then
       do start_dt <- fromisoformat (combine_date_time start_date start_time);
       do end_dt <- datetime_add start_dt (mk_delta 0 1 0 0 0);
       Ok (Timed (isoformat end_dt) "UTC")
     else Ok (AllDay end_date));
  do location <-
    (if truthy (dict_get event "location")
     then do l <- getitem event "location"; Ok (Some l)
     else Ok None);
  do description <-
    (if truthy (dict_get event "url")
     then
       do url <- getitem event "url";
       iadd_str description (source_prefix +:+ py_str url)
     else Ok description);
  Ok (mk_gcal summary description start end_ location).

(** The body of [_simulate_mcp_call] as the repository has it: it logs and
    reports success. *)
Definition _simulate_mcp_call (gcal_event : GcalEvent) : Res bool := Ok true.

(** The counters [{"successful": 0, "failed": 0}]. *)
Record Results : Type := mk_results { successful : nat; failed : nat }.

(** [results["successful"] += 1] or [results["failed"] += 1]. *)
Definition count (results : Results) (ok : bool) : Results :=
  if ok
  then mk_results (S (successful results)) (failed results)
  else mk_results (successful results) (S (failed results)).

(** The loop both batch methods are written with:
    [for event in events: if add(event): ... += 1 else: ... += 1],
    from the counters reached so far. *)
Fixpoint for_each_count (add : Event -> Res bool) (events : list Event)
    (results : Results) : Res Results :=
  match events with
  | [] => Ok results
  | event :: rest =>
      do ok <- add event;
      for_each_count add rest (count results ok)
  end.

Section Manager.

(** The call that hands a formatted event to the MCP server.  Its
    docstring makes [_simulate_mcp_call] a placeholder for the real
    integration, so the manager is stated for any such call: one that
    reports success, reports failure, or raises. *)
Variable mcp_call : GcalEvent -> Res bool.

Definition add_event_via_mcp (event : Event) : Res bool :=
  try_except
    (do valid <- validate_event_data event;
     if negb valid then Ok false
     else
       do gcal_event <- format_event_for_gcal event;
       do success <- mcp_call gcal_event;
       Ok success)
    is_Exception
    (fun _ => Ok false).

Definition batch_add_events (events : list Event) : Res Results :=
  for_each_count add_event_via_mcp events (mk_results 0 0).

End Manager.

End MCPCalendarManager.

(** ** [app.py]: class [EventScrapingAgent] *)

Module EventScrapingAgent.
Import Py MCPCalendarManager.

(** The dictionary [run_agent] returns. *)
Record Summary : Type := mk_summary {
  urls_processed : nat;
  events_found : nat;
  events_added_successfully : nat;
  events_failed : nat;
  extracted_events : list Event
}.

Section Agent.

(** The collaborators of the agent.  [scrape_webpage] and
    [extract_events_with_gemini] talk to the network and catch every
    exception themselves, so each is a function of its argument here;
    [calendar_add] is [self.calendar_manager.add_event_via_mcp]. *)
Variable scrape_webpage : string -> string.
Variable extract_events_with_gemini : gmap string string -> list Event.
Variable calendar_add : Event -> Res bool.

Definition scrape_multiple_pages (urls : list string) : gmap string string :=
  fold_left (fun scraped_data url => <[url := scrape_webpage url]> scraped_data)
            urls ∅.

Definition add_event_to_calendar (event : Event) : Res bool :=
  try_except
    (do success <- calendar_add event; Ok success)
    is_Exception
    (fun _ => Ok false).

Definition process_events (events : list Event) : Res Results :=
  for_each_count add_event_to_calendar events (mk_results 0 0).

Definition run_agent (urls : list string) : Res Summary :=
  let scraped_content := scrape_multiple_pages urls in
  let events := extract_events_with_gemini scraped_content in
  do results <- process_events events;
  Ok (mk_summary (length urls) (length events)
                 (successful results) (failed results) events).

End Agent.

End EventScrapingAgent.

(** ** Vocabulary of the specification *)

Module Spec.
Import Py Datetime MCPCalendarManager EventScrapingAgent.

(** How many elements of a list satisfy a test. *)
Fixpoint count_if {A} (p : A -> bool) (l : list A) : nat :=
  match l with
  | [] => 0%nat
  | x :: l' => ((if p x then 1 else 0) + count_if p l')%nat
  end.

(** A record fails when validation does not answer [True], or
    normalization raises, or the sink does not answer [True]. *)
Definition record_fails (sink : GcalEvent -> Res bool) (event : Event) : bool :=
  match validate_event_data event with
  | Ok true =>
      match format_event_for_gcal event with
      | Ok gcal_event =>
          match sink gcal_event with
          | Ok true => false
          | _ => true
          end
      | Raise _ => true
      end
  | _ => true
  end.

(** A sink that takes the raw record fails on it when it answers [False]
    or raises. *)
Definition sink_fails (sink : Event -> Res bool) (event : Event) : bool :=
  match sink event with
  | Ok true => false
  | _ => true
  end.

Definition is_digit (c : ascii) : bool :=
  match digit_val c with Some _ => true | None => false end.

Definition two_digits (a b : ascii) : Z :=
  default 0 (digit_val a) * 10 + default 0 (digit_val b).

(** The ISO-8601 calendar-date form [YYYY-MM-DD]: ten characters, digits
    around two hyphens, naming a day that exists. *)
Definition is_calendar_date (s : string) : bool :=
  match s with
  | String y1 (String y2 (String y3 (String y4 (String h1
      (String m1 (String m2 (String h2 (String d1 (String d2
        EmptyString))))))))) =>
      forallb is_digit [y1; y2; y3; y4; m1; m2; d1; d2]
      && Ascii.eqb h1 "-" && Ascii.eqb h2 "-"
      && check_date_fields (two_digits y1 y2 * 100 + two_digits y3 y4)
                           (two_digits m1 m2) (two_digits d1 d2)
  | _ => false
  end.

(** The form [HH:MM] of a 24-hour time without seconds. *)
Definition is_hh_mm (s : string) : bool :=
  match s with
  | String h1 (String h2 (String c (String m1 (String m2 EmptyString)))) =>
      forallb is_digit [h1; h2; m1; m2] && Ascii.eqb c ":"
      && (two_digits h1 h2 <=? 23) && (two_digits m1 m2 <=? 59)
  | _ => false
  end.

(** A well-formed [datetime]: what its constructor checks, and an offset
    within a day. *)
Definition wf_datetime (d : datetime) : bool :=
  check_date_fields (year d) (month d) (day d)
  && check_time_fields (hour d) (minute d) (second d) (microsecond d)
  && match tzinfo d with
     | None => true
     | Some off => (- DAY_US <? off) && (off <? DAY_US)
     end.

(** The length of a [timedelta] in microseconds. *)
Definition td_total (t : timedelta) : Z :=
  (td_days t * 86400 + td_seconds t) * 1000000 + td_microseconds t.

Definition HOUR_US : Z := 3600000000.

(** The three resolution steps of [format_event_for_gcal], named so that
    statements can speak of each on its own. *)
Definition resolve_start (event : Event) : GcalTime :=
  if truthy (dict_get event "start_time")
  then Timed (combine_date_time (dict_get event "start_date")
                                (dict_get event "start_time")) "UTC"
  else AllDay (dict_get event "start_date").

Definition resolve_end (event : Event) : Res GcalTime :=
  let start_date := dict_get event "start_date" in
  let start_time := dict_get event "start_time" in
  let end_date := dict_get_default event "end_date" start_date in
  let end_time := dict_get event "end_time" in
  if truthy end_time
  then Ok (Timed (combine_date_time end_date end_time) "UTC")
  else if truthy start_time
  then
    do start_dt <- fromisoformat (combine_date_time start_date start_time);
    do end_dt <- datetime_add start_dt (mk_delta 0 1 0 0 0);
    Ok (Timed (isoformat end_dt) "UTC")
  else Ok (AllDay end_date).

Definition resolve_location (event : Event) : Res (option PyVal) :=
  if truthy (dict_get event "location")
  then do l <- getitem event "location"; Ok (Some l)
  else Ok None.

Definition resolve_description (event : Event) : Res PyVal :=
  if truthy (dict_get event "url")
  then
    do url <- getitem event "url";
    iadd_str (dict_get_default event "description" (VStr ""))
             (source_prefix +:+ py_str url)
  else Ok (dict_get_default event "description" (VStr "")).

(** A bounded universal quantifier that computes: [p] holds at [r],
    [r + 1], ..., for [k] numbers. *)
Fixpoint all_from (k : nat) (r : Z) (p : Z -> bool) : bool :=
  match k with
  | O => true
  | S k' => p r && all_from k' (r + 1) p
  end.

(** One day [r] of the 400-year cycle: [_ord2ymd] names a day that exists,
    in a year of the cycle (not its last year unless [r] is among the last
    366 days), and [_ymd2ord] maps it back. *)
Definition cycle_day_ok (r : Z) : bool :=
  let '(y, m, d) := _ord2ymd (r + 1) in
  (1 <=? y) && (y <=? 400) && ((146097 - 366 <=? r) || (y <=? 399))
  && (1 <=? m) && (m <=? 12) && (1 <=? d) && (d <=? _days_in_month y m)
  && (_ymd2ord y m d =? r + 1).

(** [c] does not occur in [s]. *)
Fixpoint no_char (c : ascii) (s : string) : bool :=
  match s with
  | EmptyString => true
  | String c' r => negb (Ascii.eqb c c') && no_char c r
  end.

(** The three shapes of a printed time or offset. *)
Definition hh_mm (h mi : Z) : string := zpad 2 h +:+ ":" +:+ zpad 2 mi.
Definition hh_mm_ss (h mi s : Z) : string := hh_mm h mi +:+ ":" +:+ zpad 2 s.
Definition hh_mm_ss_ff (h mi s us : Z) : string :=
  hh_mm_ss h mi s +:+ "." +:+ zpad 6 us.

(** What [isoformat] prints for the time of day, and [_format_offset]
    after the sign. *)
Definition time_str (h mi s us : Z) : string :=
  if us =? 0 then hh_mm_ss h mi s else hh_mm_ss_ff h mi s us.

Definition tz_str (a : Z) : string :=
  let hh := a / 3600000000 in
  let r := a mod 3600000000 in
  let mm := r / 60000000 in
  let ss := r mod 60000000 in
  if ss =? 0 then hh_mm hh mm
  else if ss mod 1000000 =? 0 then hh_mm_ss hh mm (ss / 1000000)
  else hh_mm_ss_ff hh mm (ss / 1000000) (ss mod 1000000).

(** The counters of two stretches of a batch, added up. *)
Definition results_add (a b : Results) : Results :=
  mk_results (successful a + successful b) (failed a + failed b).

End Spec.

(** ** The [str] methods the agent uses

    A Python [str] is modelled by a [string] whose characters are the code
    points below 256. *)

Module Text.

Definition code (c : ascii) : N := N_of_ascii c.

(** [c.isspace()] *)
Definition is_space (c : ascii) : bool :=
  let n := code c in
  ((9 <=? n) && (n <=? 13) || (28 <=? n) && (n <=? 32)
   || (n =? 133) || (n =? 160))%N.

(** The line boundaries of [str.splitlines] other than the pair CR LF. *)
Definition is_linebreak (c : ascii) : bool :=
  let n := code c in
  ((10 <=? n) && (n <=? 13) || (28 <=? n) && (n <=? 30) || (n =? 133))%N.

Definition CR : ascii := ascii_of_nat 13.
Definition LF : ascii := ascii_of_nat 10.

(** [s.lstrip()] *)
Fixpoint lstrip (s : string) : string :=
  match s with
  | EmptyString => EmptyString
  | String c r => if is_space c then lstrip r else s
  end.

(** [s.rstrip()] *)
Fixpoint rstrip (s : string) : string :=
  match s with
  | EmptyString => EmptyString
  | String c r =>
      match rstrip r with
      | EmptyString => if is_space c then EmptyString else String c EmptyString
      | r' => String c r'
      end
  end.

(** [s.strip()] *)
Definition strip (s : string) : string := rstrip (lstrip s).

(** Put a character in front of the first string of a list. *)
Definition cons_first (c : ascii) (l : list string) : list string :=
  match l with
  | [] => [String c EmptyString]
  | x :: r => String c x :: r
  end.

(** [s.splitlines()]: the lines without their boundaries; no empty line is
    reported after a final boundary. *)
Fixpoint splitlines (s : string) : list string :=
  match s with
  | EmptyString => []
  | String c r =>
      if is_linebreak c then
        match r with
        | String c' r' =>
            if Ascii.eqb c CR && Ascii.eqb c' LF
            then EmptyString :: splitlines r'
            else EmptyString :: splitlines r
        | EmptyString => [EmptyString]
        end
      else cons_first c (splitlines r)
  end.

(** [s.split(sep)] for a separator [sep] of the two characters [a], [b]:
    cut at each occurrence found scanning from the left. *)
Fixpoint split_pair (a b : ascii) (s : string) : list string :=
  match s with
  | EmptyString => [EmptyString]
  | String c r =>
      match r with
      | String c' r' =>
          if Ascii.eqb c a && Ascii.eqb c' b
          then EmptyString :: split_pair a b r'
          else cons_first c (split_pair a b r)
      | EmptyString => [String c EmptyString]
      end
  end.

(** [s.split(sep)] for a separator of the one character [a]. *)
Fixpoint split_char (a : ascii) (s : string) : list string :=
  match s with
  | EmptyString => [EmptyString]
  | String c r =>
      if Ascii.eqb c a then EmptyString :: split_char a r
      else cons_first c (split_char a r)
  end.

(** [sep.join(l)] *)
Fixpoint join (sep : string) (l : list string) : string :=
  match l with
  | [] => EmptyString
  | [x] => x
  | x :: r => x +:+ sep +:+ join sep r
  end.

(** [bool(s)] for a string. *)
Definition nonempty (s : string) : bool := negb (String.eqb s EmptyString).

(** [s[:n]] *)
Definition slice_to (n : nat) (s : string) : string := String.substring 0 n s.

End Text.

(** ** Dictionaries that keep insertion order

    [scraped_content] is read through [.items()], [.values()] and
    [list(.keys())[0]]: the order in which its keys were first inserted
    matters there. *)

Module OrderedDict.

Definition odict : Type := list (string * string).

(** [d[k] = v]: a new key goes to the end, a known key keeps its place. *)
Fixpoint setitem (k v : string) (d : odict) : odict :=
  match d with
  | [] => [(k, v)]
  | (k', v') :: r =>
      if String.eqb k k' then (k, v) :: r else (k', v') :: setitem k v r
  end.

Definition keys (d : odict) : list string := map fst d.
Definition values (d : odict) : list string := map snd d.

(** The mapping without the order. *)
Definition to_map (d : odict) : gmap string string := list_to_map d.

End OrderedDict.

(** ** [app.py]: the methods of [EventScrapingAgent] that produce the
    scraped text and the candidate events *)

Module AgentImpl.
Import Py MCPCalendarManager EventScrapingAgent Text OrderedDict.

(** The clean-up at the end of [scrape_webpage]: strip every line, cut the
    lines at double spaces, strip the pieces, and join the non-empty ones
    with single spaces. *)
Definition clean_text (text : string) : string :=
  let lines := map strip (splitlines text) in
  let chunks :=
    flat_map (fun line => map strip (split_pair " " " " line)) lines in
  join " " (List.filter nonempty chunks).

(** [re.search(r'\[.*\]', s, re.DOTALL)]: with [.] matching every
    character, the leftmost match starts at the first ["["] and, [.*] being
    greedy, ends at the last ["]"] after it; there is no match when no
    ["]"] follows the first ["["]. *)
Fixpoint upto_last (c : ascii) (s : string) : option string :=
  match s with
  | EmptyString => None
  | String x r =>
      match upto_last c r with
      | Some t => Some (String x t)
      | None => if Ascii.eqb x c then Some (String x EmptyString) else None
      end
  end.

Fixpoint search_json_array (s : string) : option string :=
  match s with
  | EmptyString => None
  | String x r =>
      if Ascii.eqb x "["
      then match upto_last "]" r with
           | Some t => Some (String x t)
           | None => None
           end
      else search_json_array r
  end.

(** The event of [_generate_demo_events]. *)
Definition demo_event (url : string) : Event :=
  {[ "title" := VStr "Sample Event from Scraped Content";
     "start_date" := VStr "2025-11-15";
     "start_time" := VStr "14:00";
     "end_date" := VStr "2025-11-15";
     "end_time" := VStr "16:00";
     "description" :=
       VStr "This is a sample event extracted from the scraped content";
     "location" := VStr "Online";
     "url" := VStr url ]}.

(** [any(len(content) > 100 for content in scraped_content.values())] *)
Definition any_substantial (scraped_content : odict) : bool :=
  existsb (fun content => (100 <? String.length content)%nat)
          (values scraped_content).

(** [list(scraped_content.keys())[0]] *)
Definition first_key (scraped_content : odict) : Res string :=
  match keys scraped_content with
  | k :: _ => Ok k
  | [] => Raise (OtherException "IndexError")
  end.

(** [bool(scraped_content)] *)
Definition od_truthy (scraped_content : odict) : bool :=
  match scraped_content with [] => false | _ => true end.

Definition _generate_demo_events (scraped_content : odict)
    : Res (list Event) :=
  if od_truthy scraped_content && any_substantial scraped_content
  then do url <- first_key scraped_content; Ok [demo_event url]
  else Ok [].

(** The header [f"\n\n--- Content from {url} ---\n"]. *)
Definition content_header (url : string) : string :=
  newline +:+ newline +:+ "--- Content from " +:+ url +:+ " ---" +:+ newline.

(** The loop that builds [combined_content], from what is built so far. *)
Definition combine_content (scraped_content : odict) : string :=
  fold_left
    (fun combined_content '(url, content) =>
       (combined_content +:+ content_header url)
       +:+ slice_to (Z.to_nat 8000) content)
    scraped_content EmptyString.

(** The lines of the prompt before the scraped content. *)
Definition prompt_lines : list string :=
    ["Please analyze the following scraped web content and extract any events you find. ";
     "Look for information like concerts, conferences, workshops, meetings, webinars, or any other scheduled events.";
     "";
     "For each event found, extract the following information and return it as a JSON array:";
     "";
     "Required fields:";
     "- title: Event title/name";
     "- start_date: Start date in ISO format (YYYY-MM-DD)";
     "- start_time: Start time (if available, in HH:MM format)";
     "- end_date: End date in ISO format (YYYY-MM-DD, same as start_date if single day)";
     "- end_time: End time (if available, in HH:MM format)";
     "";
     "Optional fields:";
     "- description: Brief description of the event";
     "- location: Venue or location information";
     "- url: Original URL where this event was found";
     "- organizer: Event organizer or host";
     "";
     "Return ONLY a valid JSON array. If no events are found, return an empty array [].";
     "";
     "Content to analyze:"]%string.

(** The f-string [prompt]: a line feed, the lines above, the combined
    content on a line of its own. *)
Definition make_prompt (combined_content : string) : string :=
  newline +:+ join newline prompt_lines +:+ newline
  +:+ combined_content +:+ newline.

(** The keys of a list in the order of their first occurrence. *)
Fixpoint first_occurrences (l : list string) : list string :=
  match l with
  | [] => []
  | x :: r =>
      x :: List.filter (fun y => negb (String.eqb y x)) (first_occurrences r)
  end.

(** The loop of [scrape_multiple_pages] over a scraping function. *)
Definition scrape_pages (scrape : string -> string) (urls : list string)
    : odict :=
  fold_left (fun scraped_data url => setitem url (scrape url) scraped_data)
            urls [].

Section Impl.

(** What lies outside the program.  [page_text url] is the text that
    [requests] and [BeautifulSoup] deliver for the page, or the exception
    one of them raises, and [exn_message e] is [str(e)];
    [gemini_model], when there is an API key, answers a prompt with
    [response.text]; [json_loads] is [json.loads] followed by the reading of
    the array as events. *)
Variable page_text : string -> Res string.
Variable exn_message : PyExn -> string.
Variable gemini_model : option (string -> Res string).
Variable json_loads : string -> Res (list Event).

(** [scrape_webpage]: the [except Exception] clause returns the error
    sentence in place of the text. *)
Definition scrape_webpage (url : string) : string :=
  match (do text <- page_text url; Ok (clean_text text)) with
  | Ok text => text
  | Raise e => "Error scraping " +:+ url +:+ ": " +:+ exn_message e
  end.

(** [scrape_multiple_pages], keeping the order of insertion. *)
Definition scrape_multiple_pages (urls : list string) : odict :=
  scrape_pages scrape_webpage urls.

(** The [try] block of [extract_events_with_gemini]. *)
Definition extract_events_body (scraped_content : odict) : Res (list Event) :=
  match gemini_model with
  | None => _generate_demo_events scraped_content
  | Some generate_content =>
      let combined_content := combine_content scraped_content in
      let prompt := make_prompt combined_content in
      do response <- generate_content prompt;
      let response_text := strip response in
      match search_json_array response_text with
      | Some json_str => do events <- json_loads json_str; Ok events
      | None => Ok []
      end
  end.

(** [extract_events_with_gemini]: the [except Exception] clause returns the
    empty list. *)
Definition extract_events_with_gemini (scraped_content : odict) : list Event :=
  match extract_events_body scraped_content with
  | Ok events => events
  | Raise _ => []
  end.

(** [run_agent] over the methods above. *)
Definition run_agent (calendar_add : Event -> Res bool) (urls : list string)
    : Res Summary :=
  let scraped_content := scrape_multiple_pages urls in
  let events := extract_events_with_gemini scraped_content in
  do results <- process_events calendar_add events;
  Ok (mk_summary (length urls) (length events)
                 (successful results) (failed results) events).

End Impl.

Definition example_urls : list string :=
  ["https://example.com/events"; "https://another-site.com/calendar"]%string.

(** The choice of URLs in [main]: what was typed, stripped, is cut at the
    commas and each piece is stripped; an empty answer selects the
    examples. *)
Definition choose_urls (typed : string) : list string :=
  let urls_input := strip typed in
  if nonempty urls_input
  then map strip (split_char "," urls_input)
  else example_urls.

End AgentImpl.

(** ** [demo.py]: class [DemoEventScrapingAgent] *)

Module Demo.
Import Py MCPCalendarManager EventScrapingAgent Text OrderedDict AgentImpl.

(** The expression
    [list(scraped_content.keys())[0] if scraped_content else "demo"]. *)
Definition mock_url (scraped_content : odict) : Res string :=
  if od_truthy scraped_content then first_key scraped_content else Ok "demo"%string.

Definition mock_events (url1 url2 : string) : list Event :=
  [ {[ "title" := VStr "Tech Conference 2024";
       "start_date" := VStr "2024-03-15";
       "start_time" := VStr "09:00";
       "end_date" := VStr "2024-03-15";
       "end_time" := VStr "17:00";
       "description" :=
         VStr "Annual technology conference featuring the latest innovations";
       "location" := VStr "Convention Center, Downtown";
       "url" := VStr url1 ]};
    {[ "title" := VStr "Workshop: Python for Beginners";
       "start_date" := VStr "2024-03-20";
       "start_time" := VStr "14:00";
       "end_date" := VStr "2024-03-20";
       "end_time" := VStr "16:00";
       "description" := VStr "Learn Python programming from scratch";
       "location" := VStr "Library Meeting Room";
       "url" := VStr url2 ]} ].

(** The override of [extract_events_with_gemini]; it has no [try] block. *)
Definition extract_events_with_gemini (scraped_content : odict)
    : Res (list Event) :=
  do url1 <- mock_url scraped_content;
  do url2 <- mock_url scraped_content;
  let events := mock_events url1 url2 in
  if od_truthy scraped_content && any_substantial scraped_content
  then Ok events
  else Ok [].

(** The inherited [run_agent] over the override; [scrape_multiple_pages]
    is inherited too. *)
Definition run_agent (page_text : string -> Res string)
    (exn_message : PyExn -> string)
    (calendar_add : Event -> Res bool) (urls : list string) : Res Summary :=
  let scraped_content :=
    AgentImpl.scrape_multiple_pages page_text exn_message urls in
  do events <- extract_events_with_gemini scraped_content;
  do results <- process_events calendar_add events;
  Ok (mk_summary (length urls) (length events)
                 (successful results) (failed results) events).

End Demo.

(** ** Vocabulary for the text and the scraped content *)

Module TextSpec.
Import Text.

(** Every character of [s] passes the test [p]. *)
Fixpoint all_chars (p : ascii -> bool) (s : string) : bool :=
  match s with
  | EmptyString => true
  | String c r => p c && all_chars p r
  end.

(** The characters of [s] that are not white space, in order. *)
Fixpoint ink (s : string) : string :=
  match s with
  | EmptyString => EmptyString
  | String c r => if is_space c then ink r else String c (ink r)
  end.

(** [s] has no two spaces in a row. *)
Fixpoint no_double_space (s : string) : bool :=
  match s with
  | String a (String b _ as t) =>
      negb (Ascii.eqb a " " && Ascii.eqb b " ") && no_double_space t
  | _ => true
  end.

(** [s] neither starts nor ends with white space. *)
Definition trimmed (s : string) : Prop := lstrip s = s /\ rstrip s = s.

(** All the strings of a list, one after the other. *)
Definition concat_str (l : list string) : string :=
  fold_right String.append EmptyString l.

Definition not_linebreak (c : ascii) : bool := negb (is_linebreak c).

(** [s] is not empty and its last character is not white space. *)
Fixpoint ends_nonspace (s : string) : bool :=
  match s with
  | EmptyString => false
  | String c EmptyString => negb (is_space c)
  | String _ r => ends_nonspace r
  end.

(** [s] is not empty and its first character is not white space. *)
Definition starts_nonspace (s : string) : bool :=
  match s with
  | EmptyString => false
  | String c _ => negb (is_space c)
  end.

(** What [clean_text] joins: non-empty pieces without white space at
    either end and without a double space inside. *)
Definition chunk_ok (p : ascii -> bool) (s : string) : Prop :=
  starts_nonspace s = true /\ ends_nonspace s = true
  /\ no_double_space s = true /\ all_chars p s = true.

(** The form that [clean_text] produces: one line, single-spaced, without
    white space at either end. *)
Definition clean_form (s : string) : Prop :=
  all_chars not_linebreak s = true /\ no_double_space s = true /\ trimmed s.

(** The pieces [clean_text] cuts a text into, before the empty ones are
    dropped. *)
Definition chunks_of (text : string) : list string :=
  flat_map (fun line => map strip (split_pair " " " " line))
           (map strip (splitlines text)).

(** [y] is among the strings of [l]. *)
Definition mem (y : string) (l : list string) : bool :=
  existsb (String.eqb y) l.

(** A page of more than 100 characters. *)
Definition substantial (content : string) : bool :=
  (100 <? String.length content)%nat.

(** How many times [c] occurs in [s]. *)
Fixpoint count_char (c : ascii) (s : string) : nat :=
  match s with
  | EmptyString => O
  | String x r => ((if Ascii.eqb x c then 1 else 0) + count_char c r)%nat
  end.

End TextSpec.

Import Py Datetime MCPCalendarManager EventScrapingAgent Spec.

(** ** The exception monad *)

Lemma bind_Ok {A B} (m : Res A) (k : A -> Res B) (b : B) :
  bind m k = Ok b -> exists a, m = Ok a /\ k a = Ok b.
Proof. destruct m as [a|e]; simpl; [eauto | discriminate]. Qed.

Lemma try_except_Exception_returns {A} (body : Res A) (handler : PyExn -> A) :
  exists a, try_except body is_Exception (fun e => Ok (handler e)) = Ok a.
Proof. destruct body as [a|e]; simpl; eauto. Qed.

(** ** Counting loops *)

Lemma count_if_le {A} (p : A -> bool) (l : list A) :
  (count_if p l <= length l)%nat.
Proof. induction l as [|x l IH]; simpl; [lia | destruct (p x); lia]. Qed.

Lemma count_if_negb {A} (p : A -> bool) (l : list A) :
  (count_if (fun x => negb (p x)) l = length l - count_if p l)%nat.
Proof.
  induction l as [|x l IH]; simpl; [reflexivity|].
  pose proof (count_if_le p l). destruct (p x); simpl; lia.
Qed.

Lemma count_if_app {A} (p : A -> bool) (l1 l2 : list A) :
  (count_if p (l1 ++ l2) = count_if p l1 + count_if p l2)%nat.
Proof. induction l1 as [|x l1 IH]; simpl; [reflexivity | rewrite IH; lia]. Qed.

(** A loop whose step always returns counts, from any starting counters,
    the records on which the step answers [True] and those on which it
    answers [False]. *)
Lemma for_each_count_total (add : Event -> Res bool) (fails : Event -> bool)
    (Hadd : forall e, add e = Ok (negb (fails e)))
    (events : list Event) (r : Results) :
  for_each_count add events r
  = Ok (mk_results (successful r + (length events - count_if fails events))
                   (failed r + count_if fails events)).
Proof.
  revert r. induction events as [|e events IH]; intros r; simpl.
  - destruct r; simpl. f_equal. f_equal; lia.
  - rewrite Hadd. simpl. rewrite IH.
    pose proof (count_if_le fails events).
    destruct (fails e); simpl; f_equal; f_equal; lia.
Qed.

Lemma add_event_via_mcp_outcome (mcp_call : GcalEvent -> Res bool) (e : Event) :
  add_event_via_mcp mcp_call e = Ok (negb (record_fails mcp_call e)).
Proof.
  unfold add_event_via_mcp, record_fails.
  destruct (validate_event_data e) as [[|]|x]; simpl; try reflexivity.
  destruct (format_event_for_gcal e) as [g|x]; simpl; try reflexivity.
  destruct (mcp_call g) as [[|]|x]; reflexivity.
Qed.

Lemma add_event_to_calendar_outcome (calendar_add : Event -> Res bool) (e : Event) :
  add_event_to_calendar calendar_add e = Ok (negb (sink_fails calendar_add e)).
Proof.
  unfold add_event_to_calendar, sink_fails.
  destruct (calendar_add e) as [[|]|x]; reflexivity.
Qed.

Lemma sink_fails_via_mcp (mcp_call : GcalEvent -> Res bool) (e : Event) :
  sink_fails (add_event_via_mcp mcp_call) e = record_fails mcp_call e.
Proof.
  unfold sink_fails. rewrite add_event_via_mcp_outcome.
  destruct (record_fails mcp_call e); reflexivity.
Qed.

Lemma count_if_ext {A} (p q : A -> bool) (l : list A) :
  (forall x, p x = q x) -> count_if p l = count_if q l.
Proof. intros H. induction l as [|x l IH]; simpl; [reflexivity | rewrite H, IH; reflexivity]. Qed.

Lemma batch_add_events_tally (mcp_call : GcalEvent -> Res bool) (events : list Event) :
  batch_add_events mcp_call events
  = Ok (mk_results (length events - count_if (record_fails mcp_call) events)
                   (count_if (record_fails mcp_call) events)).
Proof.
  unfold batch_add_events.
  rewrite (for_each_count_total _ (record_fails mcp_call)
             (add_event_via_mcp_outcome mcp_call)).
  reflexivity.
Qed.

Lemma process_events_tally (calendar_add : Event -> Res bool) (events : list Event) :
  process_events calendar_add events
  = Ok (mk_results (length events - count_if (sink_fails calendar_add) events)
                   (count_if (sink_fails calendar_add) events)).
Proof.
  unfold process_events.
  rewrite (for_each_count_total _ (sink_fails calendar_add)
             (add_event_to_calendar_outcome calendar_add)).
  reflexivity.
Qed.

(** C3.  Over any list of [N] candidate records and any sink, both batch
    methods run through the whole list and return [successful = N - K] and
    [failed = K], where [K] counts the records that fail validation,
    normalization or the sink call; so [successful + failed = N]. *)
Theorem C3_batch_tally (mcp_call : GcalEvent -> Res bool) (events : list Event) :
  let N := length events in
  let K := count_if (record_fails mcp_call) events in
  (K <= N)%nat
  /\ batch_add_events mcp_call events = Ok (mk_results (N - K) K)
  /\ process_events (add_event_via_mcp mcp_call) events
     = Ok (mk_results (N - K) K)
  /\ (N - K + K = N)%nat.
Proof.
  intros N K. pose proof (count_if_le (record_fails mcp_call) events) as Hle.
  repeat split.
  - exact Hle.
  - apply batch_add_events_tally.
  - rewrite process_events_tally.
    rewrite (count_if_ext _ _ events (sink_fails_via_mcp mcp_call)).
    reflexivity.
  - subst N K. lia.
Qed.

Lemma for_each_count_app (add : Event -> Res bool) (fails : Event -> bool)
    (Hadd : forall e, add e = Ok (negb (fails e))) (pre post : list Event) :
  exists r1 r2,
    for_each_count add pre (mk_results 0 0) = Ok r1
    /\ for_each_count add post (mk_results 0 0) = Ok r2
    /\ for_each_count add (pre ++ post) (mk_results 0 0)
       = Ok (results_add r1 r2).
Proof.
  rewrite !(for_each_count_total add fails Hadd). simpl.
  eexists. eexists. split; [reflexivity|]. split; [reflexivity|].
  unfold results_add. simpl. rewrite count_if_app, length_app.
  pose proof (count_if_le fails pre). pose proof (count_if_le fails post).
  f_equal. f_equal; lia.
Qed.

(** ** The boundary of [add_event_to_calendar] *)

(** C7.  When the calendar call raises, or answers [False], on a record,
    [add_event_to_calendar] returns [False] without raising, and a batch
    that holds the record returns normally, counts it among the failed ones,
    and counts the records before and after it as if it were not there. *)
Theorem C7_sink_failure_is_counted (calendar_add : Event -> Res bool)
    (pre post : list Event) (e : Event) :
  (exists x, calendar_add e = Raise x) \/ calendar_add e = Ok false ->
  add_event_to_calendar calendar_add e = Ok false
  /\ exists r1 r2,
       process_events calendar_add pre = Ok r1
       /\ process_events calendar_add post = Ok r2
       /\ process_events calendar_add (pre ++ e :: post)
          = Ok (mk_results (successful r1 + successful r2)
                           (failed r1 + 1 + failed r2)).
Proof.
  intros Hfail.
  assert (Hsf : sink_fails calendar_add e = true).
  { unfold sink_fails. destruct Hfail as [[x ->] | ->]; reflexivity. }
  split.
  - rewrite add_event_to_calendar_outcome, Hsf. reflexivity.
  - unfold process_events.
    rewrite !(for_each_count_total _ _ (add_event_to_calendar_outcome calendar_add)).
    eexists. eexists. split; [reflexivity|]. split; [reflexivity|].
    simpl. rewrite count_if_app, length_app. simpl. rewrite Hsf.
    pose proof (count_if_le (sink_fails calendar_add) pre).
    pose proof (count_if_le (sink_fails calendar_add) post).
    f_equal. f_equal; lia.
Qed.

Lemma C7_witness :
  let boom : Event -> Res bool :=
    fun e => match e !! "title" with
             | Some (VStr "down") => Raise (OtherException "ConnectionError")
             | _ => Ok true
             end in
  let bad : Event := {[ "title" := VStr "down" ]} in
  let good : Event := {[ "title" := VStr "up" ]} in
  add_event_to_calendar boom bad = Ok false
  /\ process_events boom ([good] ++ bad :: [good]) = Ok (mk_results 2 1).
Proof.
  intros boom bad good.
  destruct (C7_sink_failure_is_counted boom [good] [good] bad) as [H1 H2].
  - left. exists (OtherException "ConnectionError"). reflexivity.
  - split; [exact H1 | reflexivity].
Defined.

(** ** The orchestration *)

(** C9.  For every list of URLs and whatever candidates the extractor
    returns, [run_agent] returns a summary with the number of URLs, the
    number of candidates, the two counters of [process_events] over the
    candidates, and the candidates themselves in the extractor's order. *)
Theorem C9_run_summary (scrape_webpage : string -> string)
    (extract : gmap string string -> list Event)
    (calendar_add : Event -> Res bool) (urls : list string) :
  let events := extract (scrape_multiple_pages scrape_webpage urls) in
  exists results,
    process_events calendar_add events = Ok results
    /\ run_agent scrape_webpage extract calendar_add urls
       = Ok (mk_summary (length urls) (length events)
                        (successful results) (failed results) events).
Proof.
  intros events. unfold run_agent. fold events.
  rewrite process_events_tally. eexists. split; reflexivity.
Qed.

(** ** The boundary of [add_event_via_mcp] *)

(** C10.  For every event dictionary and every MCP call,
    [add_event_via_mcp] returns a boolean; an exception raised by the
    validator, by the formatter or by the MCP call becomes [False]. *)
Theorem C10_add_event_via_mcp_never_raises (mcp_call : GcalEvent -> Res bool)
    (event : Event) :
  (exists b : bool, add_event_via_mcp mcp_call event = Ok b)
  /\ (forall x, validate_event_data event = Raise x ->
        add_event_via_mcp mcp_call event = Ok false)
  /\ (forall x, format_event_for_gcal event = Raise x ->
        add_event_via_mcp mcp_call event = Ok false)
  /\ (forall g x, format_event_for_gcal event = Ok g ->
        mcp_call g = Raise x ->
        add_event_via_mcp mcp_call event = Ok false).
Proof.
  unfold add_event_via_mcp.
  repeat split.
  - apply (try_except_Exception_returns _ (fun _ => false)).
  - intros x ->. reflexivity.
  - intros x Hf. destruct (validate_event_data event) as [[|]|y]; simpl;
      try reflexivity. rewrite Hf. reflexivity.
  - intros g x Hf Hs. destruct (validate_event_data event) as [[|]|y]; simpl;
      try reflexivity. rewrite Hf. simpl. rewrite Hs. reflexivity.
Qed.

Lemma C10_witness :
  let event : Event := {[ "title" := VStr "X"; "start_date" := VInt 20250601 ]} in
  validate_event_data event = Raise TypeError
  /\ add_event_via_mcp _simulate_mcp_call event = Ok false.
Proof.
  intros event.
  assert (Hv : validate_event_data event = Raise TypeError) by reflexivity.
  split; [exact Hv|].
  exact (proj1 (proj2 (C10_add_event_via_mcp_never_raises _simulate_mcp_call event))
               TypeError Hv).
Defined.

(** ** The validator *)

(** C6.  On a record whose [start_date] is a non-empty value that is not a
    string, the parse inside [validate_event_data] raises [TypeError]; the
    [except ValueError] clause does not cover it and the validator raises
    to its caller instead of answering [False]. *)
Theorem C6_validate_propagates_TypeError :
  validate_event_data {[ "title" := VStr "X"; "start_date" := VInt 20250601 ]}
  = Raise TypeError.
Proof. reflexivity. Qed.

Lemma truthy_dict_get (e : Event) (k : string) :
  truthy (dict_get e k) = true ->
  exists v, e !! k = Some v /\ truthy v = true /\ dict_get e k = v.
Proof.
  unfold dict_get. destruct (e !! k) as [v|]; simpl; [eauto | discriminate].
Qed.

Lemma missing_or_empty_false (e : Event) (k : string) :
  missing_or_empty e k = false <-> truthy (dict_get e k) = true.
Proof.
  unfold missing_or_empty, dict_get.
  destruct (e !! k) as [v|]; simpl; [destruct (truthy v); simpl | ];
    intuition congruence.
Qed.

(** The model's parser raises nothing but [ValueError]. *)
Lemma new_datetime_raises (y m d h mi s us : Z) (tz : option Z) (x : PyExn) :
  new_datetime y m d h mi s us tz = Raise x -> x = ValueError.
Proof. unfold new_datetime. destruct (_ && _); congruence. Qed.

Lemma fromisoformat_raises (s : string) (x : PyExn) :
  fromisoformat s = Raise x -> x = ValueError.
Proof.
  unfold fromisoformat.
  destruct (_parse_isoformat_date s) as [[[[y m] d] [|c t]]|];
    [apply new_datetime_raises | | congruence].
  destruct (_parse_isoformat_time t) as [[[[[h mi] sec] us] tz]|];
    [apply new_datetime_raises | congruence].
Qed.

Lemma truthy_VStr (s : string) : truthy (VStr s) = true <-> s <> ""%string.
Proof.
  simpl. destruct (String.eqb_spec s ""); simpl; intuition congruence.
Qed.

(** What the validator answers, case by case. *)
Lemma validate_event_data_cases (e : Event) :
  validate_event_data e =
    if truthy (dict_get e "title") && truthy (dict_get e "start_date")
    then match dict_get e "start_date" with
         | VStr s => if returns (fromisoformat s) then Ok true else Ok false
         | _ => Raise TypeError
         end
    else Ok false.
Proof.
  unfold validate_event_data, required_fields. simpl existsb.
  rewrite orb_false_r.
  destruct (missing_or_empty e "title") eqn:Ht.
  - assert (truthy (dict_get e "title") = false) as ->; [|reflexivity].
    destruct (truthy (dict_get e "title")) eqn:T; [|reflexivity].
    apply missing_or_empty_false in T. congruence.
  - apply missing_or_empty_false in Ht. rewrite Ht. simpl.
    destruct (missing_or_empty e "start_date") eqn:Hd.
    + assert (truthy (dict_get e "start_date") = false) as ->; [|reflexivity].
      destruct (truthy (dict_get e "start_date")) eqn:T; [|reflexivity].
      apply missing_or_empty_false in T. congruence.
    + apply missing_or_empty_false in Hd. rewrite Hd.
      destruct (truthy_dict_get _ _ Hd) as (v & Hv & _ & Hg).
      rewrite Hg. unfold getitem. rewrite Hv. simpl.
      destruct v as [|b|n|s]; try reflexivity.
      simpl. destruct (fromisoformat s) as [d|x] eqn:Hp; simpl; [reflexivity|].
      rewrite (fromisoformat_raises _ _ Hp). reflexivity.
Qed.

Lemma validate_true_iff (e : Event) :
  validate_event_data e = Ok true
  <-> truthy (dict_get e "title") = true
      /\ exists s d, e !! "start_date" = Some (VStr s)
                     /\ s <> ""%string /\ fromisoformat s = Ok d.
Proof.
  rewrite validate_event_data_cases. split.
  - destruct (truthy (dict_get e "title")); simpl; [|discriminate].
    destruct (truthy (dict_get e "start_date")) eqn:Hd; [|discriminate].
    destruct (truthy_dict_get _ _ Hd) as (v & Hv & Tv & Hg). rewrite Hg.
    destruct v as [|b|n|s]; try discriminate.
    destruct (fromisoformat s) as [d|x] eqn:Hp; simpl; [|discriminate].
    intros _. split; [reflexivity|]. exists s, d.
    split; [exact Hv|]. split; [apply truthy_VStr; exact Tv | exact Hp].
  - intros (Ht & s & d & Hs & Hne & Hp). rewrite Ht.
    assert (dict_get e "start_date" = VStr s) as ->
      by (unfold dict_get; rewrite Hs; reflexivity).
    rewrite (proj2 (truthy_VStr s) Hne). simpl. rewrite Hp. reflexivity.
Qed.

Lemma is_digit_val (c : ascii) :
  is_digit c = true -> exists k, digit_val c = Some k.
Proof. unfold is_digit. destruct (digit_val c); [eauto | discriminate]. Qed.

(** A [YYYY-MM-DD] calendar date parses, to that day at midnight. *)
Lemma is_calendar_date_parses (s : string) :
  is_calendar_date s = true ->
  exists d, fromisoformat s = Ok d
            /\ hour d = 0 /\ minute d = 0 /\ second d = 0
            /\ microsecond d = 0 /\ tzinfo d = None.
Proof.
  destruct s as [|y1 [|y2 [|y3 [|y4 [|h1 [|m1 [|m2 [|h2 [|d1 [|d2 [|? ?]]]]]]]]]]];
    try discriminate.
  unfold is_calendar_date. simpl forallb.
  rewrite !andb_true_iff.
  intros [[[Hdig Hh1] Hh2] Hchk].
  destruct Hdig as (Y1 & Y2 & Y3 & Y4 & M1 & M2 & D1 & D2 & _).
  apply is_digit_val in Y1, Y2, Y3, Y4, M1, M2, D1, D2.
  destruct Y1 as [a1 Y1], Y2 as [a2 Y2], Y3 as [a3 Y3], Y4 as [a4 Y4],
           M1 as [b1 M1], M2 as [b2 M2], D1 as [c1 D1], D2 as [c2 D2].
  apply Ascii.eqb_eq in Hh1, Hh2. subst h1 h2.
  unfold two_digits in Hchk. rewrite Y1, Y2, Y3, Y4, M1, M2, D1, D2 in Hchk.
  simpl default in Hchk.
  unfold fromisoformat, _parse_isoformat_date.
  cbn -[new_datetime Z.mul Z.add]. rewrite Y1, Y2, Y3, Y4.
  cbn -[new_datetime Z.mul Z.add]. rewrite M1, M2.
  cbn -[new_datetime Z.mul Z.add]. rewrite D1, D2.
  unfold new_datetime.
  replace ((((0 * 10 + a1) * 10 + a2) * 10 + a3) * 10 + a4)
    with ((a1 * 10 + a2) * 100 + (a3 * 10 + a4)) by ring.
  replace ((0 * 10 + b1) * 10 + b2) with (b1 * 10 + b2) by ring.
  replace ((0 * 10 + c1) * 10 + c2) with (c1 * 10 + c2) by ring.
  rewrite Hchk. simpl. eexists. split; [reflexivity|]. simpl. tauto.
Qed.

(** C4, as the code has it.  [validate_event_data] answers [True] exactly
    when [title] is truthy and [start_date] is a non-empty string that
    [datetime.fromisoformat] accepts; it answers [False] for every string
    [start_date] that [fromisoformat] rejects; every [YYYY-MM-DD] calendar
    date is accepted. *)
Theorem C4_validate_follows_fromisoformat (e : Event) :
  (validate_event_data e = Ok true
   <-> truthy (dict_get e "title") = true
       /\ exists s d, e !! "start_date" = Some (VStr s)
                      /\ s <> ""%string /\ fromisoformat s = Ok d)
  /\ (forall s, e !! "start_date" = Some (VStr s) ->
        returns (fromisoformat s) = false ->
        validate_event_data e = Ok false)
  /\ (forall s, e !! "start_date" = Some (VStr s) ->
        is_calendar_date s = true ->
        truthy (dict_get e "title") = true ->
        validate_event_data e = Ok true).
Proof.
  split; [apply validate_true_iff|]. split.
  - intros s Hs Hr. rewrite validate_event_data_cases.
    assert (dict_get e "start_date" = VStr s) as ->
      by (unfold dict_get; rewrite Hs; reflexivity).
    rewrite Hr. destruct (_ && _); reflexivity.
  - intros s Hs Hc Ht. apply validate_true_iff. split; [exact Ht|].
    destruct (is_calendar_date_parses s Hc) as (d & Hd & _).
    exists s, d. split; [exact Hs|]. split; [|exact Hd].
    intros ->. discriminate Hc.
Qed.

Lemma C4_witness :
  validate_event_data {[ "title" := VStr "X"; "start_date" := VStr "not-a-date" ]}
  = Ok false
  /\ validate_event_data {[ "title" := VStr "X"; "start_date" := VStr "2025-06-01" ]}
     = Ok true.
Proof.
  split.
  - apply (proj1 (proj2 (C4_validate_follows_fromisoformat _)) "not-a-date"%string);
      reflexivity.
  - apply (proj2 (proj2 (C4_validate_follows_fromisoformat _)) "2025-06-01"%string);
      reflexivity.
Defined.

(** C4, as stated, fails: a [start_date] that carries a time after the date
    is not of the form [YYYY-MM-DD], yet the validator accepts the record. *)
Lemma C4_counterexample :
  is_calendar_date "2025-06-01T14:00" = false
  /\ validate_event_data
       {[ "title" := VStr "X"; "start_date" := VStr "2025-06-01T14:00" ]}
     = Ok true.
Proof. split; reflexivity. Qed.

(** ** Strings *)

Lemma append_cons (x : ascii) (a b : string) :
  String x a +:+ b = String x (a +:+ b).
Proof. reflexivity. Qed.

Lemma append_nil_l (b : string) : "" +:+ b = b.
Proof. reflexivity. Qed.

Lemma append_assoc (a b c : string) : (a +:+ b) +:+ c = a +:+ (b +:+ c).
Proof.
  induction a as [|x a IH]; [reflexivity|].
  rewrite !append_cons, IH. reflexivity.
Qed.

Lemma append_nil_r (a : string) : a +:+ "" = a.
Proof.
  induction a as [|x a IH]; [reflexivity|].
  rewrite append_cons, IH. reflexivity.
Qed.

Lemma length_append (a b : string) :
  String.length (a +:+ b) = (String.length a + String.length b)%nat.
Proof.
  induction a as [|x a IH]; [reflexivity|].
  rewrite append_cons. simpl. rewrite IH. reflexivity.
Qed.

(** ** The formatter *)

Lemma format_event_for_gcal_steps (e : Event) :
  format_event_for_gcal e =
    (do end_ <- resolve_end e;
     do location <- resolve_location e;
     do description <- resolve_description e;
     Ok (mk_gcal (dict_get_default e "title" (VStr "Untitled Event"))
                 description (resolve_start e) end_ location)).
Proof. reflexivity. Qed.

Lemma resolve_location_returns (e : Event) :
  exists l, resolve_location e = Ok l.
Proof.
  unfold resolve_location.
  destruct (truthy (dict_get e "location")) eqn:T; [|eauto].
  destruct (truthy_dict_get _ _ T) as (v & Hv & _).
  unfold getitem. rewrite Hv. simpl. eauto.
Qed.

Lemma format_event_for_gcal_Ok (e : Event) (g : GcalEvent) :
  format_event_for_gcal e = Ok g ->
  start g = resolve_start e
  /\ resolve_end e = Ok (end_ g)
  /\ resolve_description e = Ok (description g)
  /\ summary g = dict_get_default e "title" (VStr "Untitled Event").
Proof.
  rewrite format_event_for_gcal_steps. intros H.
  apply bind_Ok in H as (t & Ht & H).
  apply bind_Ok in H as (l & Hl & H).
  apply bind_Ok in H as (d & Hd & H).
  injection H as <-. simpl. auto.
Qed.

Lemma format_event_for_gcal_returns (e : Event) (t : GcalTime) (d : PyVal) :
  resolve_end e = Ok t -> resolve_description e = Ok d ->
  exists g, format_event_for_gcal e = Ok g.
Proof.
  intros Ht Hd. rewrite format_event_for_gcal_steps, Ht. simpl.
  destruct (resolve_location_returns e) as [l ->]. simpl. rewrite Hd.
  simpl. eauto.
Qed.

Lemma format_event_for_gcal_raises_at_end (e : Event) (x : PyExn) :
  resolve_end e = Raise x -> format_event_for_gcal e = Raise x.
Proof. intros H. rewrite format_event_for_gcal_steps, H. reflexivity. Qed.

(** The description step returns unless a suffix has to go onto a
    description that is not a string. *)
Lemma resolve_description_returns (e : Event) :
  truthy (dict_get e "url") = false
  \/ (exists d, dict_get_default e "description" (VStr "") = VStr d) ->
  exists d, resolve_description e = Ok d.
Proof.
  unfold resolve_description. intros [-> | [d Hd]]; [eauto|].
  destruct (truthy (dict_get e "url")) eqn:T; [|eauto].
  destruct (truthy_dict_get _ _ T) as (v & Hv & _).
  unfold getitem. rewrite Hv, Hd. simpl. eauto.
Qed.

(** C1, as the code has it.  For a valid record whose [start_time] and
    [end_time] are both absent or empty, every event the formatter returns
    has a date-only start, the record's [start_date], and a date-only end,
    the record's [end_date] or, when the record has no [end_date] key, its
    [start_date]; and the formatter does return one unless it has to append
    a url to a description that is not a string. *)
Theorem C1_all_day_when_no_times (e : Event) :
  validate_event_data e = Ok true ->
  truthy (dict_get e "start_time") = false ->
  truthy (dict_get e "end_time") = false ->
  exists s,
    e !! "start_date" = Some (VStr s)
    /\ (forall g, format_event_for_gcal e = Ok g ->
          start g = AllDay (VStr s)
          /\ end_ g = AllDay (dict_get_default e "end_date" (VStr s)))
    /\ (truthy (dict_get e "url") = false
        \/ (exists d, dict_get_default e "description" (VStr "") = VStr d) ->
        exists g, format_event_for_gcal e = Ok g).
Proof.
  intros Hv Hst Het.
  apply validate_true_iff in Hv as (_ & s & d & Hs & _ & _).
  assert (Hsd : dict_get e "start_date" = VStr s)
    by (unfold dict_get; rewrite Hs; reflexivity).
  assert (Hend : resolve_end e = Ok (AllDay (dict_get_default e "end_date" (VStr s)))).
  { unfold resolve_end. rewrite Het, Hst, Hsd. reflexivity. }
  exists s. split; [exact Hs|]. split.
  - intros g Hg. apply format_event_for_gcal_Ok in Hg as (H1 & H2 & _).
    split.
    + rewrite H1. unfold resolve_start. rewrite Hst, Hsd. reflexivity.
    + rewrite Hend in H2. injection H2 as <-. reflexivity.
  - intros Hd. destruct (resolve_description_returns e Hd) as [d' Hd'].
    exact (format_event_for_gcal_returns e _ _ Hend Hd').
Qed.

Lemma C1_witness :
  let e : Event :=
    {[ "title" := VStr "Festival"; "start_date" := VStr "2025-07-04";
       "end_date" := VStr "2025-07-06" ]} in
  exists g, format_event_for_gcal e = Ok g
    /\ start g = AllDay (VStr "2025-07-04")
    /\ end_ g = AllDay (VStr "2025-07-06").
Proof.
  intros e.
  destruct (C1_all_day_when_no_times e eq_refl eq_refl eq_refl)
    as (s & Hs & Hall & Hex).
  assert (s = "2025-07-04"%string) as -> by (vm_compute in Hs; congruence).
  destruct (Hex (or_introl eq_refl)) as [g Hg].
  exists g. split; [exact Hg|]. exact (Hall g Hg).
Defined.

(** C1, as stated, fails: with no [start_time] but an [end_time], the
    start is date-only and the end is a timed instant. *)
Lemma C1_counterexample :
  let e : Event :=
    {[ "title" := VStr "Office hours"; "start_date" := VStr "2025-07-04";
       "end_time" := VStr "18:00" ]} in
  validate_event_data e = Ok true
  /\ e !! "start_time" = None
  /\ exists g, format_event_for_gcal e = Ok g
       /\ start g = AllDay (VStr "2025-07-04")
       /\ end_ g = Timed "2025-07-04T18:00:00" "UTC".
Proof.
  intros e. split; [reflexivity|]. split; [reflexivity|].
  eexists. split; [reflexivity|]. split; reflexivity.
Qed.

(** ** The calendar: ordinals and dates *)

Lemma all_from_spec (k : nat) (r : Z) (p : Z -> bool) :
  all_from k r p = true ->
  forall i, r <= i < r + Z.of_nat k -> p i = true.
Proof.
  revert r. induction k as [|k IH]; intros r H i Hi; [lia|].
  simpl in H. apply andb_true_iff in H as [H0 H1].
  destruct (Z.eq_dec i r) as [->|Hne]; [exact H0|].
  apply (IH (r + 1) H1). lia.
Qed.

Lemma is_leap_shift (k y : Z) : _is_leap (400 * k + y) = _is_leap y.
Proof.
  unfold _is_leap.
  replace (400 * k + y) with (y + (100 * k) * 4) at 1 by ring.
  replace (400 * k + y) with (y + (4 * k) * 100) at 1 by ring.
  replace (400 * k + y) with (y + k * 400) by ring.
  rewrite !Z_mod_plus_full. reflexivity.
Qed.

Lemma days_before_year_shift (k y : Z) :
  _days_before_year (400 * k + y) = 146097 * k + _days_before_year y.
Proof.
  unfold _days_before_year. cbv zeta.
  replace (400 * k + y - 1) with (y - 1 + (100 * k) * 4) at 2 by ring.
  replace (400 * k + y - 1) with (y - 1 + (4 * k) * 100) at 2 by ring.
  replace (400 * k + y - 1) with (y - 1 + k * 400) at 2 by ring.
  rewrite !Z.div_add by lia. ring.
Qed.

Lemma ymd2ord_shift (k y m d : Z) :
  _ymd2ord (400 * k + y) m d = 146097 * k + _ymd2ord y m d.
Proof.
  unfold _ymd2ord, _days_before_month.
  rewrite days_before_year_shift, is_leap_shift. ring.
Qed.

Lemma days_in_month_shift (k y m : Z) :
  _days_in_month (400 * k + y) m = _days_in_month y m.
Proof. unfold _days_in_month. rewrite is_leap_shift. reflexivity. Qed.

Lemma ord2ymd_shift (k r : Z) :
  0 <= r < 146097 ->
  _ord2ymd (146097 * k + r + 1)
  = let '(y, m, d) := _ord2ymd (r + 1) in (400 * k + y, m, d).
Proof.
  intros Hr. unfold _ord2ymd. cbv zeta. unfold _DI400Y.
  replace (146097 * k + r + 1 - 1) with (r + k * 146097) by ring.
  replace (r + 1 - 1) with r by ring.
  rewrite Z.div_add, Z_mod_plus_full by lia.
  rewrite (Z.div_small r 146097), (Z.mod_small r 146097) by lia.
  set (n100 := r / _DI100Y). set (r1 := r mod _DI100Y).
  set (n4 := r1 / _DI4Y). set (r2 := r1 mod _DI4Y).
  set (n1 := r2 / 365). set (r3 := r2 mod 365).
  destruct ((n1 =? 4) || (n100 =? 4)).
  - f_equal. f_equal. ring.
  - match goal with |- context [if ?c then _ else _] => destruct c end;
      f_equal; f_equal; ring.
Qed.

Lemma cycle_ok : all_from (Z.to_nat 146097) 0 cycle_day_ok = true.
Proof. vm_cast_no_check (eq_refl true). Qed.

Lemma ord2ymd_correct (n : Z) :
  1 <= n <= _MAXORDINAL ->
  let '(y, m, d) := _ord2ymd n in
  check_date_fields y m d = true /\ _ymd2ord y m d = n.
Proof.
  unfold _MAXORDINAL. intros Hn.
  pose (k := (n - 1) / 146097). pose (r := (n - 1) mod 146097).
  assert (Hr : 0 <= r < 146097) by (apply Z.mod_pos_bound; lia).
  assert (Hnk : n = 146097 * k + r + 1).
  { pose proof (Z.div_mod (n - 1) 146097 ltac:(lia)). subst k r. lia. }
  assert (Hk : 0 <= k <= 24).
  { subst k. split; [apply Z.div_pos; lia|].
    enough ((n - 1) / 146097 < 25) by lia.
    apply Z.div_lt_upper_bound; lia. }
  assert (Hc : cycle_day_ok r = true).
  { apply (all_from_spec _ _ _ cycle_ok). rewrite Z2Nat.id; lia. }
  rewrite Hnk, (ord2ymd_shift k r Hr).
  unfold cycle_day_ok in Hc.
  destruct (_ord2ymd (r + 1)) as [[y m] d].
  rewrite !andb_true_iff, orb_true_iff in Hc.
  destruct Hc as [[[[[[[Hy1 Hy2] Hy3] Hm1] Hm2] Hd1] Hd2] Ho].
  split.
  - unfold check_date_fields, MINYEAR, MAXYEAR.
    rewrite days_in_month_shift, Hm1, Hm2, Hd1, Hd2.
    assert (1 <= 400 * k + y <= 9999) as [H1 H2];
      [| apply Z.leb_le in H1, H2; rewrite H1, H2; reflexivity].
    apply Z.leb_le in Hy1, Hy2.
    destruct Hy3 as [Hy3|Hy3]; [apply Z.leb_le in Hy3|apply Z.leb_le in Hy3]; lia.
  - rewrite ymd2ord_shift. apply Z.eqb_eq in Ho. lia.
Qed.

(** ** Adding a [timedelta] *)

Lemma mk_delta_total (D H M S U : Z) :
  td_total (mk_delta D H M S U)
  = (((D * 24 + H) * 60 + M) * 60 + S) * 1000000 + U.
Proof.
  unfold td_total, mk_delta, DAY_US. simpl.
  set (T := (((D * 24 + H) * 60 + M) * 60 + S) * 1000000 + U).
  clearbody T. Z.div_mod_to_equations. lia.
Qed.

Lemma mk_delta_range (D H M S U : Z) :
  0 <= td_seconds (mk_delta D H M S U) < 86400
  /\ 0 <= td_microseconds (mk_delta D H M S U) < 1000000.
Proof.
  unfold mk_delta, DAY_US. simpl.
  set (T := (((D * 24 + H) * 60 + M) * 60 + S) * 1000000 + U).
  clearbody T. Z.div_mod_to_equations. lia.
Qed.

Lemma timedelta_add_total (a b : timedelta) :
  td_total (timedelta_add a b) = td_total a + td_total b.
Proof.
  unfold timedelta_add. rewrite mk_delta_total. unfold td_total. ring.
Qed.

Lemma datetime_add_correct (d : datetime) (td : timedelta) (d' : datetime) :
  datetime_add d td = Ok d' ->
  local_instant d' = local_instant d + td_total td
  /\ tzinfo d' = tzinfo d
  /\ check_date_fields (year d') (month d') (day d') = true
  /\ check_time_fields (hour d') (minute d') (second d') (microsecond d') = true.
Proof.
  unfold datetime_add. cbv zeta.
  set (delta := timedelta_add _ td).
  assert (Ht : td_total delta = local_instant d + td_total td).
  { subst delta. rewrite timedelta_add_total, mk_delta_total. reflexivity. }
  assert (Hr : 0 <= td_seconds delta < 86400
               /\ 0 <= td_microseconds delta < 1000000).
  { subst delta. unfold timedelta_add. apply mk_delta_range. }
  clearbody delta.
  destruct ((0 <? td_days delta) && (td_days delta <=? _MAXORDINAL)) eqn:Hd;
    [|discriminate].
  apply andb_true_iff in Hd as [Hd1 Hd2].
  apply Z.ltb_lt in Hd1. apply Z.leb_le in Hd2.
  pose proof (ord2ymd_correct (td_days delta) ltac:(lia)) as Ho.
  destruct (_ord2ymd (td_days delta)) as [[y m] dd].
  destruct Ho as [Hc Ho].
  intros H. injection H as <-. simpl.
  split; [|split; [reflexivity|split; [exact Hc|]]].
  - rewrite <- Ht. unfold local_instant, toordinal, td_total. simpl.
    rewrite Ho. destruct Hr as [Hs Hu]. Z.div_mod_to_equations. lia.
  - unfold check_time_fields. destruct Hr as [Hs Hu].
    rewrite !andb_true_iff, !Z.leb_le.
    Z.div_mod_to_equations. lia.
Qed.

Lemma datetime_add_raises (d : datetime) (td : timedelta) (x : PyExn) :
  datetime_add d td = Raise x -> x = OverflowError.
Proof.
  unfold datetime_add. cbv zeta.
  destruct (_ && _); [|congruence].
  destruct (_ord2ymd _) as [[y m] dd]. discriminate.
Qed.

Lemma days_before_year_nonneg (y : Z) : 1 <= y -> 0 <= _days_before_year y.
Proof.
  intros Hy. unfold _days_before_year. cbv zeta.
  Z.div_mod_to_equations. lia.
Qed.

Lemma days_before_year_step (y : Z) :
  _days_before_year (y + 1)
  = _days_before_year y + (if _is_leap y then 366 else 365).
Proof.
  unfold _days_before_year, _is_leap. cbv zeta.
  replace (y + 1 - 1) with y by ring.
  destruct (y mod 4 =? 0) eqn:H4; destruct (y mod 100 =? 0) eqn:H100;
    destruct (y mod 400 =? 0) eqn:H400; simpl;
    rewrite ?Z.eqb_eq, ?Z.eqb_neq in *;
    Z.div_mod_to_equations; lia.
Qed.

(** ** Printing and parsing *)

Lemma append_char (c : ascii) (x : string) : String c "" +:+ x = String c x.
Proof. reflexivity. Qed.

Lemma digit_val_digit_char (k : Z) :
  0 <= k <= 9 -> digit_val (digit_char k) = Some k.
Proof.
  intros Hk.
  assert (k = 0 \/ k = 1 \/ k = 2 \/ k = 3 \/ k = 4 \/ k = 5 \/ k = 6
          \/ k = 7 \/ k = 8 \/ k = 9) as H by lia.
  repeat (destruct H as [-> | H]; [reflexivity|]). subst k. reflexivity.
Qed.

Lemma parse_digits_app (a b : nat) (s : string) (acc : Z) :
  parse_digits (a + b) s acc
  = match parse_digits a s acc with
    | Some (v, r) => parse_digits b r v
    | None => None
    end.
Proof.
  revert s acc. induction a as [|a IH]; intros s acc; simpl; [reflexivity|].
  destruct s as [|c r]; [reflexivity|].
  destruct (digit_val c); [apply IH | reflexivity].
Qed.

Lemma zpad_S (w : nat) (n : Z) :
  zpad (S w) n = zpad w (n / 10) +:+ String (digit_char (n mod 10)) "".
Proof. reflexivity. Qed.

Lemma parse_digits_zpad (w : nat) (n : Z) (rest : string) (acc : Z) :
  0 <= n < 10 ^ Z.of_nat w ->
  parse_digits w (zpad w n +:+ rest) acc
  = Some (acc * 10 ^ Z.of_nat w + n, rest).
Proof.
  revert n rest acc. induction w as [|w IH]; intros n rest acc Hn.
  - simpl in *. f_equal. f_equal. lia.
  - rewrite zpad_S, append_assoc, append_char.
    replace (parse_digits (S w)) with (parse_digits (w + 1)%nat)
      by (f_equal; lia).
    rewrite Nat2Z.inj_succ, Z.pow_succ_r in Hn |- * by lia.
    rewrite parse_digits_app, IH.
    + simpl. rewrite digit_val_digit_char
        by (pose proof (Z.mod_pos_bound n 10); lia).
      f_equal. f_equal.
      pose proof (Z.div_mod n 10 ltac:(lia)). lia.
    + split; [apply Z.div_pos; lia|].
      apply Z.div_lt_upper_bound; lia.
Qed.

Lemma length_zpad (w : nat) (n : Z) : String.length (zpad w n) = w.
Proof.
  revert n. induction w as [|w IH]; intros n; [reflexivity|].
  rewrite zpad_S, length_append, IH. simpl. lia.
Qed.

Lemma no_char_append (c : ascii) (a b : string) :
  no_char c (a +:+ b) = no_char c a && no_char c b.
Proof.
  induction a as [|x a IH]; [reflexivity|].
  rewrite append_cons. simpl. rewrite IH, andb_assoc. reflexivity.
Qed.

Lemma no_char_zpad (c : ascii) (w : nat) (n : Z) :
  is_digit c = false -> no_char c (zpad w n) = true.
Proof.
  intros Hc. revert n. induction w as [|w IH]; intros n; [reflexivity|].
  rewrite zpad_S, no_char_append, IH. simpl. rewrite andb_true_r.
  destruct (Ascii.eqb_spec c (digit_char (n mod 10))) as [->|]; [|reflexivity].
  unfold is_digit in Hc.
  rewrite digit_val_digit_char in Hc
    by (pose proof (Z.mod_pos_bound n 10); lia).
  discriminate.
Qed.

Lemma split_at_no_char (c : ascii) (a rest : string) :
  no_char c a = true ->
  split_at c (a +:+ rest)
  = match split_at c rest with
    | Some (x, y) => Some (a +:+ x, y)
    | None => None
    end.
Proof.
  induction a as [|x a IH]; intros H.
  - rewrite append_nil_l. destruct (split_at c rest) as [[? ?]|]; reflexivity.
  - simpl in H. apply andb_true_iff in H as [Hx Ha].
    rewrite append_cons. simpl. apply negb_true_iff in Hx. rewrite Hx.
    rewrite (IH Ha). destruct (split_at c rest) as [[? ?]|]; reflexivity.
Qed.

Lemma split_at_none (c : ascii) (a : string) :
  no_char c a = true -> split_at c a = None.
Proof.
  intros H. rewrite <- (append_nil_r a), (split_at_no_char c a "" H).
  reflexivity.
Qed.

(** Flatten a printed shape into characters followed by padded numbers. *)
Ltac norm_str :=
  unfold hh_mm_ss_ff, hh_mm_ss, hh_mm;
  rewrite ?append_assoc, ?append_char, ?append_nil_l.

Lemma parse_hh_mm (h mi : Z) :
  0 <= h < 100 -> 0 <= mi < 100 ->
  _parse_hh_mm_ss_ff (hh_mm h mi) = Some (h, mi, 0, 0).
Proof.
  intros Hh Hm. unfold _parse_hh_mm_ss_ff. norm_str.
  rewrite parse_digits_zpad by (simpl; lia). simpl Ascii.eqb. simpl negb. cbv iota.
  rewrite <- (append_nil_r (zpad 2 mi)).
  rewrite parse_digits_zpad by (simpl; lia). reflexivity.
Qed.

Lemma parse_hh_mm_ss (h mi s : Z) :
  0 <= h < 100 -> 0 <= mi < 100 -> 0 <= s < 100 ->
  _parse_hh_mm_ss_ff (hh_mm_ss h mi s) = Some (h, mi, s, 0).
Proof.
  intros Hh Hm Hs. unfold _parse_hh_mm_ss_ff. norm_str.
  rewrite parse_digits_zpad by (simpl; lia). simpl Ascii.eqb. simpl negb. cbv iota.
  rewrite parse_digits_zpad by (simpl; lia). simpl Ascii.eqb. simpl negb. cbv iota.
  rewrite <- (append_nil_r (zpad 2 s)).
  rewrite parse_digits_zpad by (simpl; lia). reflexivity.
Qed.

Lemma parse_hh_mm_ss_ff (h mi s us : Z) :
  0 <= h < 100 -> 0 <= mi < 100 -> 0 <= s < 100 -> 0 <= us < 1000000 ->
  _parse_hh_mm_ss_ff (hh_mm_ss_ff h mi s us) = Some (h, mi, s, us).
Proof.
  intros Hh Hm Hs Hu. unfold _parse_hh_mm_ss_ff. norm_str.
  rewrite parse_digits_zpad by (simpl; lia). simpl Ascii.eqb. simpl negb. cbv iota.
  rewrite parse_digits_zpad by (simpl; lia). simpl Ascii.eqb. simpl negb. cbv iota.
  rewrite parse_digits_zpad by (simpl; lia). simpl Ascii.eqb. simpl negb. cbv iota.
  unfold parse_fraction. rewrite length_zpad.
  rewrite <- (append_nil_r (zpad 6 us)).
  rewrite parse_digits_zpad by (simpl; lia). reflexivity.
Qed.

Lemma isoformat_shape (d : datetime) :
  isoformat d
  = zpad 4 (year d) +:+ String "-" (zpad 2 (month d) +:+ String "-"
      (zpad 2 (day d) +:+ String "T"
         (time_str (hour d) (minute d) (second d) (microsecond d)
          +:+ _format_offset (tzinfo d)))).
Proof.
  unfold isoformat, time_str. destruct (microsecond d =? 0); norm_str; reflexivity.
Qed.

Lemma format_offset_shape (off : Z) :
  _format_offset (Some off)
  = String (if off <? 0 then "-"%char else "+"%char) (tz_str (Z.abs off)).
Proof.
  unfold _format_offset, tz_str. cbv zeta.
  set (ss := (Z.abs off mod 3600000000) mod 60000000).
  destruct (off <? 0); destruct (ss =? 0); [| destruct (ss mod 1000000 =? 0) | | destruct (ss mod 1000000 =? 0)];
    norm_str; rewrite ?append_nil_r; reflexivity.
Qed.

Lemma parse_time_str (h mi s us : Z) :
  check_time_fields h mi s us = true ->
  _parse_hh_mm_ss_ff (time_str h mi s us) = Some (h, mi, s, us).
Proof.
  unfold check_time_fields. rewrite !andb_true_iff, !Z.leb_le.
  intros H. unfold time_str.
  destruct (Z.eqb_spec us 0) as [->|Hne].
  - apply parse_hh_mm_ss; lia.
  - apply parse_hh_mm_ss_ff; lia.
Qed.

Lemma no_char_shapes (c : ascii) (h mi s us : Z) :
  is_digit c = false -> Ascii.eqb c ":" = false -> Ascii.eqb c "." = false ->
  no_char c (hh_mm h mi) = true
  /\ no_char c (hh_mm_ss h mi s) = true
  /\ no_char c (hh_mm_ss_ff h mi s us) = true.
Proof.
  intros Hd Hc Hp. unfold hh_mm_ss_ff, hh_mm_ss, hh_mm.
  rewrite !no_char_append, !no_char_zpad by exact Hd.
  simpl. rewrite Hc, Hp. auto.
Qed.

Lemma no_char_time_str (c : ascii) (h mi s us : Z) :
  is_digit c = false -> Ascii.eqb c ":" = false -> Ascii.eqb c "." = false ->
  no_char c (time_str h mi s us) = true.
Proof.
  intros Hd Hc Hp. unfold time_str.
  destruct (no_char_shapes c h mi s us Hd Hc Hp) as (_ & H2 & H3).
  destruct (us =? 0); assumption.
Qed.

Lemma no_char_tz_str (c : ascii) (a : Z) :
  is_digit c = false -> Ascii.eqb c ":" = false -> Ascii.eqb c "." = false ->
  no_char c (tz_str a) = true.
Proof.
  intros Hd Hc Hp. unfold tz_str. cbv zeta.
  set (hh := a / 3600000000). set (mm := (a mod 3600000000) / 60000000).
  set (ss := (a mod 3600000000) mod 60000000).
  destruct (no_char_shapes c hh mm (ss / 1000000) (ss mod 1000000) Hd Hc Hp)
    as (H1 & H2 & H3).
  destruct (ss =? 0); [exact H1|].
  destruct (ss mod 1000000 =? 0); [exact H2 | exact H3].
Qed.

Lemma length_shapes (h mi s us : Z) :
  String.length (hh_mm h mi) = 5%nat
  /\ String.length (hh_mm_ss h mi s) = 8%nat
  /\ String.length (hh_mm_ss_ff h mi s us) = 15%nat.
Proof.
  unfold hh_mm_ss_ff, hh_mm_ss, hh_mm.
  rewrite !length_append, !length_zpad. simpl. auto.
Qed.

Lemma parse_tz_str (sign a : Z) :
  sign = 1 \/ sign = -1 -> 0 <= a < DAY_US ->
  parse_tz sign (tz_str a) = Some (sign * a).
Proof.
  unfold DAY_US. intros Hs Ha. unfold parse_tz, tz_str. cbv zeta.
  set (hh := a / 3600000000). set (r := a mod 3600000000).
  set (mm := r / 60000000). set (ss := r mod 60000000).
  assert (Hhh : 0 <= hh < 24) by (subst hh; Z.div_mod_to_equations; lia).
  assert (Hmm : 0 <= mm < 60) by (subst mm r; Z.div_mod_to_equations; lia).
  assert (Hss : 0 <= ss / 1000000 < 60)
    by (subst ss r; Z.div_mod_to_equations; lia).
  assert (Hus : 0 <= ss mod 1000000 < 1000000)
    by (apply Z.mod_pos_bound; lia).
  assert (Ha' : a = ((hh * 60 + mm) * 60 + ss / 1000000) * 1000000
                    + ss mod 1000000)
    by (subst hh mm ss r; Z.div_mod_to_equations; lia).
  assert (Hrange : (- DAY_US <? sign * a) && (sign * a <? DAY_US) = true).
  { unfold DAY_US. apply andb_true_iff. rewrite !Z.ltb_lt.
    destruct Hs as [-> | ->]; lia. }
  destruct (length_shapes hh mm (ss / 1000000) (ss mod 1000000))
    as (L1 & L2 & L3).
  clearbody hh mm ss r.
  destruct (Z.eqb_spec ss 0) as [Hz|Hnz].
  - rewrite L1, parse_hh_mm by lia. simpl negb. cbv iota.
    replace (sign * (((hh * 60 + mm) * 60 + 0) * 1000000 + 0)) with (sign * a).
    + rewrite Hrange. reflexivity.
    + f_equal. subst ss. change (0 / 1000000) with 0 in Ha'.
      change (0 mod 1000000) with 0 in Ha'. lia.
  - destruct (Z.eqb_spec (ss mod 1000000) 0) as [Hz2|Hnz2].
    + rewrite L2, parse_hh_mm_ss by lia. simpl negb. cbv iota.
      replace (sign * (((hh * 60 + mm) * 60 + ss / 1000000) * 1000000 + 0))
        with (sign * a).
      * rewrite Hrange. reflexivity.
      * f_equal. lia.
    + rewrite L3, parse_hh_mm_ss_ff by lia. simpl negb. cbv iota.
      rewrite <- Ha', Hrange. reflexivity.
Qed.

Lemma split_at_here (c : ascii) (a rest : string) :
  no_char c a = true -> split_at c (a +:+ String c rest) = Some (a, rest).
Proof.
  intros H. rewrite (split_at_no_char _ _ _ H). simpl.
  rewrite Ascii.eqb_refl, append_nil_r. reflexivity.
Qed.

Lemma split_at_absent (c c' : ascii) (a rest : string) :
  no_char c a = true -> Ascii.eqb c c' = false -> no_char c rest = true ->
  split_at c (a +:+ String c' rest) = None.
Proof.
  intros Ha Hc Hr. apply split_at_none.
  rewrite no_char_append, Ha. simpl. rewrite Hc, Hr. reflexivity.
Qed.

Lemma parse_isoformat_time_printed (h mi s us : Z) (tz : option Z) :
  check_time_fields h mi s us = true ->
  match tz with
  | None => True
  | Some off => - DAY_US < off < DAY_US
  end ->
  _parse_isoformat_time (time_str h mi s us +:+ _format_offset tz)
  = Some (h, mi, s, us, tz).
Proof.
  intros Hc Htz. unfold _parse_isoformat_time.
  pose proof (no_char_time_str "-" h mi s us eq_refl eq_refl eq_refl) as Nm.
  pose proof (no_char_time_str "+" h mi s us eq_refl eq_refl eq_refl) as Np.
  destruct tz as [off|].
  - rewrite format_offset_shape.
    destruct (Z.ltb_spec off 0) as [Hneg|Hpos].
    + rewrite (split_at_here _ _ _ Nm). cbv beta iota zeta. simpl fst. simpl snd.
      rewrite (parse_time_str _ _ _ _ Hc).
      rewrite parse_tz_str by (unfold DAY_US in *; lia).
      do 3 f_equal. lia.
    + rewrite (split_at_absent "-" "+" _ _ Nm eq_refl)
        by (apply no_char_tz_str; reflexivity).
      rewrite (split_at_here _ _ _ Np). cbv beta iota zeta. simpl fst. simpl snd.
      rewrite (parse_time_str _ _ _ _ Hc).
      rewrite parse_tz_str by (unfold DAY_US in *; lia).
      do 3 f_equal. lia.
  - simpl _format_offset. rewrite append_nil_r.
    rewrite (split_at_none _ _ Nm), (split_at_none _ _ Np).
    cbv beta iota zeta. simpl fst. simpl snd.
    rewrite (parse_time_str _ _ _ _ Hc). reflexivity.
Qed.

Lemma expect_char_here (c : ascii) (r : string) :
  expect_char c (String c r) = Some r.
Proof. unfold expect_char. rewrite Ascii.eqb_refl. reflexivity. Qed.

Lemma parse_isoformat_date_printed (y m d : Z) (rest : string) :
  check_date_fields y m d = true ->
  _parse_isoformat_date
    (zpad 4 y +:+ String "-" (zpad 2 m +:+ String "-" (zpad 2 d +:+ rest)))
  = Some (y, m, d, rest).
Proof.
  unfold check_date_fields, MINYEAR, MAXYEAR.
  rewrite !andb_true_iff, !Z.leb_le. intros H.
  assert (d <= 31).
  { destruct H as [[[[[_ _] Hm1] Hm2] _] Hd].
    unfold _days_in_month in Hd.
    destruct ((m =? 2) && _is_leap y); [lia|].
    assert (m = 1 \/ m = 2 \/ m = 3 \/ m = 4 \/ m = 5 \/ m = 6 \/ m = 7
            \/ m = 8 \/ m = 9 \/ m = 10 \/ m = 11 \/ m = 12) as Hm by lia.
    repeat (destruct Hm as [-> | Hm]; [simpl in Hd; lia|]).
    subst m. simpl in Hd. lia. }
  unfold _parse_isoformat_date.
  rewrite parse_digits_zpad by (simpl; lia). rewrite expect_char_here.
  rewrite parse_digits_zpad by (simpl; lia). rewrite expect_char_here.
  rewrite parse_digits_zpad by (simpl; lia). reflexivity.
Qed.

(** Printing a well-formed [datetime] and parsing it back gives it again. *)
Lemma fromisoformat_isoformat (d : datetime) :
  wf_datetime d = true -> fromisoformat (isoformat d) = Ok d.
Proof.
  unfold wf_datetime. rewrite !andb_true_iff. intros [[Hd Ht] Hz].
  rewrite isoformat_shape. unfold fromisoformat.
  rewrite (parse_isoformat_date_printed _ _ _ _ Hd).
  rewrite parse_isoformat_time_printed.
  - unfold new_datetime. rewrite Hd, Ht. destruct d; reflexivity.
  - exact Ht.
  - destruct (tzinfo d); [|exact I].
    apply andb_true_iff in Hz. rewrite !Z.ltb_lt in Hz. exact Hz.
Qed.

Lemma parse_tz_range (sign : Z) (t : string) (off : Z) :
  parse_tz sign t = Some off -> - DAY_US < off < DAY_US.
Proof.
  unfold parse_tz. cbv zeta.
  destruct (negb _); [discriminate|].
  destruct (_parse_hh_mm_ss_ff t) as [[[[h mi] s] us]|]; [|discriminate].
  destruct (_ && _) eqn:H; [|discriminate].
  intros [= <-]. apply andb_true_iff in H. rewrite !Z.ltb_lt in H. exact H.
Qed.

Lemma parse_isoformat_time_tz (t : string) (h mi s us : Z) (off : Z) :
  _parse_isoformat_time t = Some (h, mi, s, us, Some off) ->
  - DAY_US < off < DAY_US.
Proof.
  unfold _parse_isoformat_time. cbv zeta.
  destruct (_parse_hh_mm_ss_ff _) as [[[[h0 mi0] s0] us0]|]; [|discriminate].
  match goal with |- context [snd ?p] => destruct (snd p) as [[sign tzs]|] end;
    [|discriminate].
  destruct (parse_tz sign tzs) as [o|] eqn:Hp; [|discriminate].
  intros [= _ _ _ _ <-]. exact (parse_tz_range _ _ _ Hp).
Qed.

Lemma new_datetime_Ok (y m d h mi s us : Z) (tz : option Z) (dt : datetime) :
  new_datetime y m d h mi s us tz = Ok dt ->
  dt = mk_datetime y m d h mi s us tz
  /\ check_date_fields y m d = true /\ check_time_fields h mi s us = true.
Proof.
  unfold new_datetime. destruct (_ && _) eqn:H; [|discriminate].
  intros [= <-]. apply andb_true_iff in H. tauto.
Qed.

(** Whatever the parser returns is a well-formed [datetime]. *)
Lemma fromisoformat_wf (s : string) (d : datetime) :
  fromisoformat s = Ok d -> wf_datetime d = true.
Proof.
  unfold fromisoformat, wf_datetime.
  destruct (_parse_isoformat_date s) as [[[[y m] dd] [|c t]]|]; [| |discriminate].
  - intros H. apply new_datetime_Ok in H as (-> & Hd & Ht). simpl.
    rewrite Hd, Ht. reflexivity.
  - destruct (_parse_isoformat_time t) as [[[[[h mi] sec] us] tz]|] eqn:Hp;
      [|discriminate].
    intros H. apply new_datetime_Ok in H as (-> & Hd & Ht). simpl.
    rewrite Hd, Ht. simpl. destruct tz as [off|]; [|reflexivity].
    apply parse_isoformat_time_tz in Hp.
    apply andb_true_iff. rewrite !Z.ltb_lt. exact Hp.
Qed.

Lemma days_before_year_mono (y1 y2 : Z) :
  1 <= y1 <= y2 -> _days_before_year y1 <= _days_before_year y2.
Proof.
  intros H. unfold _days_before_year. cbv zeta.
  Z.div_mod_to_equations. lia.
Qed.

Lemma ymd2ord_bounds (y m d : Z) :
  check_date_fields y m d = true ->
  _days_before_year y + 1 <= _ymd2ord y m d
  <= _days_before_year y + (if _is_leap y then 366 else 365).
Proof.
  unfold check_date_fields, MINYEAR, MAXYEAR.
  rewrite !andb_true_iff, !Z.leb_le.
  intros [[[[[Hy1 Hy2] Hm1] Hm2] Hd1] Hd2].
  unfold _ymd2ord, _days_before_month. unfold _days_in_month in Hd2.
  assert (m = 1 \/ m = 2 \/ m = 3 \/ m = 4 \/ m = 5 \/ m = 6 \/ m = 7
          \/ m = 8 \/ m = 9 \/ m = 10 \/ m = 11 \/ m = 12) as Hm by lia.
  destruct (_is_leap y);
    repeat (destruct Hm as [-> | Hm]; [simpl in *; lia|]);
    subst m; simpl in *; lia.
Qed.

Lemma hour_delta : mk_delta 0 1 0 0 0 = mk_timedelta 0 3600 0.
Proof. reflexivity. Qed.

Lemma td_total_hour : td_total (mk_delta 0 1 0 0 0) = HOUR_US.
Proof. reflexivity. Qed.

(** Adding the hour returns for every well-formed start before year 9999. *)
Lemma datetime_add_hour_returns (d : datetime) :
  wf_datetime d = true -> year d < 9999 ->
  exists d', datetime_add d (mk_delta 0 1 0 0 0) = Ok d'.
Proof.
  unfold wf_datetime. rewrite !andb_true_iff. intros [[Hd Ht] _] Hy.
  pose proof (ymd2ord_bounds _ _ _ Hd) as Ho.
  assert (Hy1 : 1 <= year d).
  { unfold check_date_fields, MINYEAR in Hd. rewrite !andb_true_iff, !Z.leb_le in Hd. lia. }
  pose proof (days_before_year_nonneg (year d) Hy1) as H0.
  pose proof (days_before_year_mono (year d + 1) 9999 ltac:(lia)) as Hm.
  rewrite days_before_year_step in Hm.
  change (_days_before_year 9999) with 3651694 in Hm.
  assert (Hord : 1 <= toordinal d <= 3651694).
  { unfold toordinal. destruct (_is_leap (year d)); lia. }
  unfold check_time_fields in Ht. rewrite !andb_true_iff, !Z.leb_le in Ht.
  unfold datetime_add. cbv zeta. rewrite hour_delta.
  set (delta := timedelta_add _ _).
  assert (Hdays : 0 < td_days delta <= _MAXORDINAL).
  { subst delta. unfold timedelta_add, mk_delta, _MAXORDINAL, DAY_US. simpl.
    set (o := toordinal d) in *. clearbody o.
    Z.div_mod_to_equations. lia. }
  destruct Hdays as [H1 H2].
  apply Z.ltb_lt in H1. apply Z.leb_le in H2. rewrite H1, H2.
  cbn [andb].
  destruct (_ord2ymd (td_days delta)) as [[y m] dd]. eauto.
Qed.

Lemma no_char_cons (c x : ascii) (r : string) :
  no_char c (String x r) = negb (Ascii.eqb c x) && no_char c r.
Proof. reflexivity. Qed.

Lemma not_digit_neq (c x : ascii) :
  is_digit c = false -> is_digit x = true -> Ascii.eqb c x = false.
Proof.
  intros Hc Hx. destruct (Ascii.eqb_spec c x) as [->|]; [congruence|reflexivity].
Qed.

(** A [YYYY-MM-DD] date combined with an [HH:MM] time parses, to that
    minute of that day. *)
Lemma combine_date_time_parses (sd st : string) :
  is_calendar_date sd = true -> is_hh_mm st = true ->
  exists d0 d,
    fromisoformat sd = Ok d0
    /\ fromisoformat (combine_date_time (VStr sd) (VStr st)) = Ok d
    /\ year d = year d0 /\ month d = month d0 /\ day d = day d0
    /\ second d = 0 /\ microsecond d = 0 /\ tzinfo d = None.
Proof.
  intros Hsd Hst.
  destruct (is_calendar_date_parses sd Hsd) as (d0 & Hd0 & _).
  exists d0.
  destruct sd as [|y1 [|y2 [|y3 [|y4 [|h1 [|m1 [|m2 [|h2 [|d1 [|d2 [|? ?]]]]]]]]]]];
    try discriminate.
  destruct st as [|t1 [|t2 [|c [|t3 [|t4 [|? ?]]]]]]; try discriminate.
  unfold is_calendar_date in Hsd. simpl forallb in Hsd.
  rewrite !andb_true_iff in Hsd.
  destruct Hsd as [[[Hdig Hh1] Hh2] Hchk].
  destruct Hdig as (Y1 & Y2 & Y3 & Y4 & M1 & M2 & D1 & D2 & _).
  apply is_digit_val in Y1, Y2, Y3, Y4, M1, M2, D1, D2.
  destruct Y1 as [a1 Y1], Y2 as [a2 Y2], Y3 as [a3 Y3], Y4 as [a4 Y4],
           M1 as [b1 M1], M2 as [b2 M2], D1 as [c1 D1], D2 as [c2 D2].
  apply Ascii.eqb_eq in Hh1, Hh2. subst h1 h2.
  unfold is_hh_mm in Hst. simpl forallb in Hst.
  rewrite !andb_true_iff, !Z.leb_le in Hst.
  destruct Hst as [[[(T1 & T2 & T3 & T4 & _) Hc] Hh] Hm].
  apply Ascii.eqb_eq in Hc. subst c.
  pose proof (not_digit_neq "-" _ eq_refl T1) as N1.
  pose proof (not_digit_neq "-" _ eq_refl T2) as N2.
  pose proof (not_digit_neq "-" _ eq_refl T3) as N3.
  pose proof (not_digit_neq "-" _ eq_refl T4) as N4.
  pose proof (not_digit_neq "+" _ eq_refl T1) as P1.
  pose proof (not_digit_neq "+" _ eq_refl T2) as P2.
  pose proof (not_digit_neq "+" _ eq_refl T3) as P3.
  pose proof (not_digit_neq "+" _ eq_refl T4) as P4.
  apply is_digit_val in T1, T2, T3, T4.
  destruct T1 as [e1 T1], T2 as [e2 T2], T3 as [e3 T3], T4 as [e4 T4].
  unfold two_digits in Hchk, Hh, Hm.
  rewrite Y1, Y2, Y3, Y4, M1, M2, D1, D2 in Hchk.
  rewrite T1, T2 in Hh. rewrite T3, T4 in Hm.
  simpl default in Hchk, Hh, Hm.
  revert Hd0.
  unfold combine_date_time, py_str.
  rewrite ?append_cons, ?append_nil_l.
  match goal with |- context [String "T" ?t] => set (T := t) end.
  assert (NM : no_char "-" T = true)
    by (subst T; rewrite !no_char_cons, N1, N2, N3, N4; reflexivity).
  assert (NP : no_char "+" T = true)
    by (subst T; rewrite !no_char_cons, P1, P2, P3, P4; reflexivity).
  unfold fromisoformat, _parse_isoformat_date, _parse_isoformat_time.
  do 3 (cbn [parse_digits];
        rewrite ?Y1, ?Y2, ?Y3, ?Y4, ?M1, ?M2, ?D1, ?D2, ?expect_char_here).
  cbn [parse_digits].
  rewrite (split_at_none _ _ NM), (split_at_none _ _ NP).
  cbv beta iota zeta. simpl fst. simpl snd.
  subst T. unfold _parse_hh_mm_ss_ff.
  do 3 (cbn [parse_digits negb];
        rewrite ?T1, ?T2, ?T3, ?T4, ?Ascii.eqb_refl;
        change (digit_val "0") with (Some 0)).
  cbn [parse_digits negb].
  unfold new_datetime.
  replace ((((0 * 10 + a1) * 10 + a2) * 10 + a3) * 10 + a4)
    with ((a1 * 10 + a2) * 100 + (a3 * 10 + a4)) by ring.
  replace ((0 * 10 + b1) * 10 + b2) with (b1 * 10 + b2) by ring.
  replace ((0 * 10 + c1) * 10 + c2) with (c1 * 10 + c2) by ring.
  rewrite Hchk.
  assert (Hdv : forall c k, digit_val c = Some k -> 0 <= k <= 9).
  { intros c k. unfold digit_val.
    destruct (_ && _) eqn:E; [|discriminate].
    apply andb_true_iff in E. rewrite !Z.leb_le in E. intros [= <-]. lia. }
  pose proof (Hdv _ _ T1). pose proof (Hdv _ _ T2).
  pose proof (Hdv _ _ T3). pose proof (Hdv _ _ T4).
  assert (Htf : check_time_fields ((0 * 10 + e1) * 10 + e2)
                  ((0 * 10 + e3) * 10 + e4) ((0 * 10 + 0) * 10 + 0) 0 = true).
  { unfold check_time_fields. rewrite !andb_true_iff, !Z.leb_le. lia. }
  rewrite Htf. change (check_time_fields 0 0 0 0) with true.
  simpl andb. cbv iota.
  intros [= <-]. eexists. split; [reflexivity|]. split; [reflexivity|].
  simpl. tauto.
Qed.

(** ** The default duration *)

Lemma resolve_end_default_hour (e : Event) :
  truthy (dict_get e "start_time") = true ->
  truthy (dict_get e "end_time") = false ->
  resolve_end e
  = (do start_dt <- fromisoformat
                      (combine_date_time (dict_get e "start_date")
                                         (dict_get e "start_time"));
     do end_dt <- datetime_add start_dt (mk_delta 0 1 0 0 0);
     Ok (Timed (isoformat end_dt) "UTC")).
Proof. intros Hs He. unfold resolve_end. rewrite He, Hs. reflexivity. Qed.

(** C2, as the code has it.  For a valid record whose [start_time] is
    present and not empty and whose [end_time] is absent or empty: every
    event the formatter returns is timed, both bounds labelled UTC; its start
    is [start_date], ["T"], [start_time], [":00"]; its end is the ISO form of
    the instant one hour, exactly, after the instant that string parses to,
    on the same clock; the formatter returns whenever that instant lies
    before year 9999 and the description step does not raise; and the string
    does parse when [start_date] is [YYYY-MM-DD] and [start_time] is
    [HH:MM]. *)
Theorem C2_one_hour_default (e : Event) :
  validate_event_data e = Ok true ->
  truthy (dict_get e "start_time") = true ->
  truthy (dict_get e "end_time") = false ->
  let start_str :=
    combine_date_time (dict_get e "start_date") (dict_get e "start_time") in
  (forall g, format_event_for_gcal e = Ok g ->
     exists d d',
       fromisoformat start_str = Ok d
       /\ datetime_add d (mk_delta 0 1 0 0 0) = Ok d'
       /\ start g = Timed start_str "UTC"
       /\ end_ g = Timed (isoformat d') "UTC"
       /\ fromisoformat (isoformat d') = Ok d'
       /\ local_instant d' = local_instant d + HOUR_US
       /\ tzinfo d' = tzinfo d)
  /\ (forall d, fromisoformat start_str = Ok d -> year d < 9999 ->
        truthy (dict_get e "url") = false
        \/ (exists s, dict_get_default e "description" (VStr "") = VStr s) ->
        exists g, format_event_for_gcal e = Ok g)
  /\ (forall sd st,
        e !! "start_date" = Some (VStr sd) ->
        e !! "start_time" = Some (VStr st) ->
        is_calendar_date sd = true -> is_hh_mm st = true ->
        exists d, fromisoformat start_str = Ok d).
Proof.
  intros _ Hs He start_str.
  pose proof (resolve_end_default_hour e Hs He) as Hend. fold start_str in Hend.
  split; [|split].
  - intros g Hg.
    apply format_event_for_gcal_Ok in Hg as (Hst & Hen & _).
    rewrite Hend in Hen.
    apply bind_Ok in Hen as (d & Hd & Hen).
    apply bind_Ok in Hen as (d' & Hd' & Hen).
    injection Hen as Hen.
    destruct (datetime_add_correct _ _ _ Hd') as (Hi & Htz & Hcd & Hct).
    exists d, d'. repeat split; try assumption.
    + rewrite Hst. unfold resolve_start. rewrite Hs. reflexivity.
    + symmetry. exact Hen.
    + apply fromisoformat_isoformat. unfold wf_datetime.
      rewrite Hcd, Hct, Htz. cbn [andb].
      pose proof (fromisoformat_wf _ _ Hd) as Hw. unfold wf_datetime in Hw.
      apply andb_true_iff in Hw as [_ Hw]. exact Hw.
  - intros d Hd Hy Hdesc.
    destruct (datetime_add_hour_returns d (fromisoformat_wf _ _ Hd) Hy)
      as [d' Hd'].
    destruct (resolve_description_returns e Hdesc) as [ds Hds].
    apply (format_event_for_gcal_returns e (Timed (isoformat d') "UTC") ds);
      [|exact Hds].
    rewrite Hend, Hd. cbn [bind]. rewrite Hd'. reflexivity.
  - intros sd st Hsd Hst Hcal Htime.
    destruct (combine_date_time_parses sd st Hcal Htime) as (d0 & d & _ & Hd & _).
    exists d. subst start_str. unfold dict_get. rewrite Hsd, Hst. exact Hd.
Qed.

Lemma C2_witness :
  let e : Event :=
    {[ "title" := VStr "Tech Talk"; "start_date" := VStr "2025-06-01";
       "start_time" := VStr "14:00" ]} in
  exists g, format_event_for_gcal e = Ok g
    /\ start g = Timed "2025-06-01T14:00:00" "UTC"
    /\ end_ g = Timed "2025-06-01T15:00:00" "UTC".
Proof.
  intros e.
  destruct (C2_one_hour_default e eq_refl eq_refl eq_refl) as (Hall & Hex & Hp).
  destruct (Hp "2025-06-01"%string "14:00"%string eq_refl eq_refl eq_refl eq_refl)
    as [d Hd].
  assert (Hy : year d < 9999).
  { vm_compute in Hd. injection Hd as <-. reflexivity. }
  destruct (Hex d Hd Hy (or_introl eq_refl)) as [g Hg].
  exists g. split; [exact Hg|].
  destruct (Hall g Hg) as (d1 & d' & Hd1 & Hd' & Hst & Hen & _).
  split; [exact Hst|].
  rewrite Hen. vm_compute in Hd1. injection Hd1 as <-.
  vm_compute in Hd'. injection Hd' as <-. reflexivity.
Defined.

(** C2, as stated, fails: a [start_time] that is present but empty gives
    an all-day event, not a timed one. *)
Lemma C2_counterexample :
  let e : Event :=
    {[ "title" := VStr "Tech Talk"; "start_date" := VStr "2025-06-01";
       "start_time" := VStr "" ]} in
  validate_event_data e = Ok true
  /\ e !! "start_time" = Some (VStr "") /\ e !! "end_time" = None
  /\ exists g, format_event_for_gcal e = Ok g
       /\ start g = AllDay (VStr "2025-06-01")
       /\ end_ g = AllDay (VStr "2025-06-01").
Proof.
  intros e. split; [reflexivity|]. split; [reflexivity|]. split; [reflexivity|].
  eexists. split; [reflexivity|]. split; reflexivity.
Qed.

(** ** Malformed times *)

(** C5, as the code has it.  For a valid record whose [start_time] is
    present and not empty and whose [end_time] is absent or empty, if
    [start_date], ["T"], [start_time], [":00"] does not parse then the
    formatter raises [ValueError], [add_event_via_mcp] answers [False], and
    a batch that holds the record counts it as failed and counts the records
    around it as usual.  When [end_time] is present and not empty no time is
    parsed: the end is the string [end_date], ["T"], [end_time], [":00"]
    whatever it spells. *)
Theorem C5_unparsable_start_fails_locally (mcp_call : GcalEvent -> Res bool)
    (pre post : list Event) (e : Event) :
  validate_event_data e = Ok true ->
  (truthy (dict_get e "start_time") = true ->
   truthy (dict_get e "end_time") = false ->
   returns (fromisoformat (combine_date_time (dict_get e "start_date")
                                             (dict_get e "start_time")))
   = false ->
   format_event_for_gcal e = Raise ValueError
   /\ add_event_via_mcp mcp_call e = Ok false
   /\ exists r1 r2,
        batch_add_events mcp_call pre = Ok r1
        /\ batch_add_events mcp_call post = Ok r2
        /\ batch_add_events mcp_call (pre ++ e :: post)
           = Ok (mk_results (successful r1 + successful r2)
                            (failed r1 + 1 + failed r2)))
  /\ (truthy (dict_get e "end_time") = true ->
      resolve_end e
      = Ok (Timed (combine_date_time
                     (dict_get_default e "end_date" (dict_get e "start_date"))
                     (dict_get e "end_time")) "UTC")
      /\ (truthy (dict_get e "url") = false
          \/ (exists s, dict_get_default e "description" (VStr "") = VStr s) ->
          exists g, format_event_for_gcal e = Ok g)).
Proof.
  intros Hv. split.
  - intros Hs He Hp.
    assert (Hf : format_event_for_gcal e = Raise ValueError).
    { apply format_event_for_gcal_raises_at_end.
      rewrite (resolve_end_default_hour e Hs He).
      destruct (fromisoformat _) as [d|x] eqn:Hd; [discriminate|].
      rewrite (fromisoformat_raises _ _ Hd). reflexivity. }
    assert (Hrf : record_fails mcp_call e = true).
    { unfold record_fails. rewrite Hv, Hf. reflexivity. }
    split; [exact Hf|]. split.
    + rewrite add_event_via_mcp_outcome, Hrf. reflexivity.
    + rewrite !batch_add_events_tally.
      eexists. eexists. split; [reflexivity|]. split; [reflexivity|].
      simpl. rewrite count_if_app, length_app. simpl. rewrite Hrf.
      pose proof (count_if_le (record_fails mcp_call) pre).
      pose proof (count_if_le (record_fails mcp_call) post).
      f_equal. f_equal; lia.
  - intros He.
    assert (Hend : resolve_end e
                   = Ok (Timed (combine_date_time
                                  (dict_get_default e "end_date"
                                     (dict_get e "start_date"))
                                  (dict_get e "end_time")) "UTC")).
    { unfold resolve_end. rewrite He. reflexivity. }
    split; [exact Hend|].
    intros Hdesc. destruct (resolve_description_returns e Hdesc) as [ds Hds].
    exact (format_event_for_gcal_returns e _ ds Hend Hds).
Qed.

Lemma C5_witness :
  let e : Event :=
    {[ "title" := VStr "Tech Talk"; "start_date" := VStr "2025-06-01";
       "start_time" := VStr "25:00" ]} in
  let ok : Event :=
    {[ "title" := VStr "Festival"; "start_date" := VStr "2025-07-04" ]} in
  format_event_for_gcal e = Raise ValueError
  /\ add_event_via_mcp _simulate_mcp_call e = Ok false
  /\ batch_add_events _simulate_mcp_call ([ok] ++ e :: [ok])
     = Ok (mk_results 2 1).
Proof.
  intros e ok.
  destruct (proj1 (C5_unparsable_start_fails_locally
                     _simulate_mcp_call [ok] [ok] e eq_refl)
              eq_refl eq_refl eq_refl) as (Hf & Ha & r1 & r2 & H1 & H2 & Hb).
  split; [exact Hf|]. split; [exact Ha|].
  rewrite Hb. vm_compute in H1. vm_compute in H2.
  injection H1 as <-. injection H2 as <-. reflexivity.
Defined.

(** C5, as stated, fails: an [end_time] that is no time of day does not
    make normalization fail; the record goes to the sink and is counted as
    successful. *)
Lemma C5_counterexample :
  let e : Event :=
    {[ "title" := VStr "Tech Talk"; "start_date" := VStr "2025-06-01";
       "start_time" := VStr "14:00"; "end_time" := VStr "banana" ]} in
  validate_event_data e = Ok true
  /\ e !! "end_time" = Some (VStr "banana")
  /\ is_hh_mm "banana" = false
  /\ (exists g, format_event_for_gcal e = Ok g
        /\ end_ g = Timed "2025-06-01Tbanana:00" "UTC")
  /\ batch_add_events _simulate_mcp_call [e] = Ok (mk_results 1 0).
Proof.
  intros e. split; [reflexivity|]. split; [reflexivity|]. split; [reflexivity|].
  split; [|reflexivity].
  eexists. split; reflexivity.
Qed.

(** ** The description *)








(** * Further properties of the code *)

(** ** More on the validator *)

(** X1. A record that lacks [title] or [start_date], or holds an empty
    value under one of them, is answered [False] before any parsing. *)
Theorem X1_validate_missing_required (e : Event) :
  truthy (dict_get e "title") = false
  \/ truthy (dict_get e "start_date") = false ->
  validate_event_data e = Ok false.
Proof.
  intros H. rewrite validate_event_data_cases.
  destruct H as [-> | ->]; [reflexivity|].
  rewrite andb_false_r. reflexivity.
Qed.

Lemma X1_witness :
  validate_event_data {[ "start_date" := VStr "2025-01-01" ]} = Ok false
  /\ validate_event_data {[ "title" := VStr ""; "start_date" := VInt 7 ]}
     = Ok false.
Proof.
  split; apply X1_validate_missing_required; left; reflexivity.
Defined.

(** X2. The validator raises in one situation only: [title] is truthy and
    [start_date] is a truthy value that is not a string; what it raises then
    is [TypeError]. *)
Theorem X2_validate_raises_iff (e : Event) (x : PyExn) :
  validate_event_data e = Raise x
  <-> x = TypeError
      /\ truthy (dict_get e "title") = true
      /\ truthy (dict_get e "start_date") = true
      /\ (forall s, dict_get e "start_date" <> VStr s).
Proof.
  rewrite validate_event_data_cases. split.
  - destruct (truthy (dict_get e "title")); [|discriminate].
    destruct (truthy (dict_get e "start_date")); [|discriminate]. simpl.
    destruct (dict_get e "start_date") as [|b|n|s];
      try (intros [= <-]; repeat split; congruence).
    destruct (returns (fromisoformat s)); discriminate.
  - intros (-> & -> & -> & Hs). simpl.
    destruct (dict_get e "start_date") as [|b|n|s]; try reflexivity.
    destruct (Hs s eq_refl).
Qed.

(** ** More on the formatter *)

Lemma iadd_str_raises (a : PyVal) (b : string) (x : PyExn) :
  iadd_str a b = Raise x -> x = TypeError /\ forall s, a <> VStr s.
Proof. destruct a; simpl; intros [= <-]; split; congruence. Qed.

Lemma resolve_description_raises (e : Event) (x : PyExn) :
  resolve_description e = Raise x ->
  x = TypeError
  /\ truthy (dict_get e "url") = true
  /\ forall s, dict_get_default e "description" (VStr "") <> VStr s.
Proof.
  unfold resolve_description.
  destruct (truthy (dict_get e "url")) eqn:T; [|discriminate].
  destruct (truthy_dict_get _ _ T) as (v & Hv & _).
  unfold getitem. rewrite Hv. simpl. intros H.
  apply iadd_str_raises in H. tauto.
Qed.

Lemma resolve_end_raises (e : Event) (x : PyExn) :
  resolve_end e = Raise x ->
  truthy (dict_get e "start_time") = true
  /\ truthy (dict_get e "end_time") = false
  /\ ((x = ValueError
       /\ returns (fromisoformat (combine_date_time (dict_get e "start_date")
                                    (dict_get e "start_time"))) = false)
      \/ (x = OverflowError
          /\ exists d,
               fromisoformat (combine_date_time (dict_get e "start_date")
                                (dict_get e "start_time")) = Ok d
               /\ datetime_add d (mk_delta 0 1 0 0 0) = Raise OverflowError)).
Proof.
  unfold resolve_end. cbv zeta.
  destruct (truthy (dict_get e "end_time")); [discriminate|].
  destruct (truthy (dict_get e "start_time")); [|discriminate].
  destruct (fromisoformat _) as [d|y] eqn:Hp; cbn [bind].
  - destruct (datetime_add d _) as [d'|y] eqn:Ha; cbn [bind]; [discriminate|].
    intros [= <-]. pose proof (datetime_add_raises _ _ _ Ha) as ->.
    split; [reflexivity|]. split; [reflexivity|]. right. eauto.
  - intros [= <-]. pose proof (fromisoformat_raises _ _ Hp) as ->.
    split; [reflexivity|]. split; [reflexivity|]. left. auto.
Qed.

(** X3. The formatter raises for three reasons only.  [ValueError]: the
    one-hour default is needed and the combined start string does not parse.
    [OverflowError]: it parses but the hour added passes the last
    representable instant.  [TypeError]: a url has to be appended to a
    description that is not a string.  No [KeyError] arises from the
    subscripts [event['location']] and [event['url']]. *)
Theorem X3_format_raises_only (e : Event) (x : PyExn) :
  format_event_for_gcal e = Raise x ->
  let start_str :=
    combine_date_time (dict_get e "start_date") (dict_get e "start_time") in
  (x = ValueError
   /\ truthy (dict_get e "start_time") = true
   /\ truthy (dict_get e "end_time") = false
   /\ returns (fromisoformat start_str) = false)
  \/ (x = OverflowError
      /\ truthy (dict_get e "start_time") = true
      /\ truthy (dict_get e "end_time") = false
      /\ exists d, fromisoformat start_str = Ok d
                   /\ datetime_add d (mk_delta 0 1 0 0 0) = Raise OverflowError)
  \/ (x = TypeError
      /\ truthy (dict_get e "url") = true
      /\ forall s, dict_get_default e "description" (VStr "") <> VStr s).
Proof.
  rewrite format_event_for_gcal_steps. intros H start_str.
  destruct (resolve_end e) as [t|y] eqn:He; cbn [bind] in H.
  - destruct (resolve_location_returns e) as [l Hl]. rewrite Hl in H.
    cbn [bind] in H.
    destruct (resolve_description e) as [d|y] eqn:Hd; cbn [bind] in H;
      [discriminate|].
    injection H as <-. right. right. exact (resolve_description_raises _ _ Hd).
  - injection H as <-.
    destruct (resolve_end_raises _ _ He) as (Hs & Het & [[-> Hp] | [-> Hp]]).
    + left. auto.
    + right. left. auto.
Qed.

Lemma X3_witness :
  let e : Event :=
    {[ "title" := VStr "T"; "start_date" := VStr "2025-06-01";
       "description" := VNone; "url" := VStr "https://a.example" ]} in
  format_event_for_gcal e = Raise TypeError
  /\ truthy (dict_get e "url") = true.
Proof.
  intros e.
  assert (H : format_event_for_gcal e = Raise TypeError) by reflexivity.
  split; [exact H|].
  destruct (X3_format_raises_only e TypeError H) as [(Hx & _) | [(Hx & _) | (_ & Hu & _)]];
    [discriminate Hx | discriminate Hx | exact Hu].
Defined.

(** X4. In the event formatted from a valid record the summary is the
    record's title, a truthy value: the placeholder ["Untitled Event"] is
    never substituted.  The location is carried over exactly when the record
    holds a truthy one; an empty location is dropped. *)
Theorem X4_summary_and_location (e : Event) (g : GcalEvent) :
  validate_event_data e = Ok true ->
  format_event_for_gcal e = Ok g ->
  e !! "title" = Some (summary g) /\ truthy (summary g) = true
  /\ (forall v, location g = Some v
                <-> e !! "location" = Some v /\ truthy v = true).
Proof.
  intros Hv Hf. apply validate_true_iff in Hv as (Ht & _).
  destruct (truthy_dict_get _ _ Ht) as (t & Het & Tt & _).
  revert Hf. rewrite format_event_for_gcal_steps. intros Hf.
  apply bind_Ok in Hf as (en & _ & Hf).
  apply bind_Ok in Hf as (l & Hl & Hf).
  apply bind_Ok in Hf as (d & _ & Hf).
  injection Hf as <-. simpl.
  unfold dict_get_default. rewrite Het. simpl.
  split; [reflexivity|]. split; [exact Tt|].
  unfold resolve_location in Hl. intros v.
  destruct (truthy (dict_get e "location")) eqn:T.
  - destruct (truthy_dict_get _ _ T) as (w & Hw & Tw & _).
    unfold getitem in Hl. rewrite Hw in Hl. simpl in Hl. injection Hl as <-.
    rewrite Hw. split.
    + intros [= <-]. auto.
    + intros [[= <-] _]. reflexivity.
  - injection Hl as <-. split; [discriminate|].
    intros [Hw Tw]. unfold dict_get in T. rewrite Hw in T. simpl in T.
    rewrite Tw in T. discriminate T.
Qed.

Lemma X4_witness :
  let e : Event :=
    {[ "title" := VStr "Talk"; "start_date" := VStr "2025-06-01";
       "location" := VStr "" ]} in
  exists g, format_event_for_gcal e = Ok g
            /\ summary g = VStr "Talk" /\ location g = None.
Proof.
  intros e.
  destruct (format_event_for_gcal e) as [g|x] eqn:Hf;
    [|vm_compute in Hf; discriminate].
  destruct (X4_summary_and_location e g eq_refl Hf) as (Ht & _ & Hl).
  exists g. split; [reflexivity|]. split.
  - assert (Ht' : e !! "title" = Some (VStr "Talk")) by reflexivity.
    rewrite Ht in Ht'. injection Ht' as ->. reflexivity.
  - destruct (location g) as [v|] eqn:Hg; [|reflexivity].
    destruct (proj1 (Hl v) eq_refl) as [Hv Tv].
    assert (Hv' : e !! "location" = Some (VStr "")) by reflexivity.
    rewrite Hv in Hv'. injection Hv' as ->. discriminate Tv.
Defined.

(** ** The last hour of the calendar *)

Lemma toordinal_le_max (d : datetime) :
  check_date_fields (year d) (month d) (day d) = true ->
  1 <= toordinal d <= _MAXORDINAL
  /\ (toordinal d = _MAXORDINAL
      <-> year d = 9999 /\ month d = 12 /\ day d = 31).
Proof.
  intros Hd. pose proof (ymd2ord_bounds _ _ _ Hd) as Ho.
  pose proof Hd as Hd'.
  unfold check_date_fields, MINYEAR, MAXYEAR in Hd'.
  rewrite !andb_true_iff, !Z.leb_le in Hd'.
  destruct Hd' as [[[[[Hy1 Hy2] Hm1] Hm2] Hd1] Hd2].
  pose proof (days_before_year_nonneg (year d) Hy1) as H0.
  pose proof (days_before_year_step (year d)) as Hstep.
  unfold toordinal, _MAXORDINAL.
  destruct (Z.eq_dec (year d) 9999) as [E|NE].
  - rewrite E in *. change (_is_leap 9999) with false in *.
    change (_days_before_year 9999) with 3651694 in *.
    split; [lia|]. split.
    + intros H. split; [reflexivity|].
      unfold _ymd2ord, _days_before_month in H.
      change (_days_before_year 9999) with 3651694 in H.
      change (_is_leap 9999) with false in H. rewrite andb_false_r in H.
      unfold _days_in_month in Hd2. change (_is_leap 9999) with false in Hd2.
      rewrite andb_false_r in Hd2.
      assert (month d = 1 \/ month d = 2 \/ month d = 3 \/ month d = 4
              \/ month d = 5 \/ month d = 6 \/ month d = 7 \/ month d = 8
              \/ month d = 9 \/ month d = 10 \/ month d = 11 \/ month d = 12)
        as Hm by lia.
      repeat (destruct Hm as [Em | Hm]; [rewrite Em in *; simpl in *; lia|]).
      rewrite Hm in *. simpl in *. lia.
    + intros (_ & -> & ->). reflexivity.
  - pose proof (days_before_year_mono (year d + 1) 9999 ltac:(lia)) as Hm.
    rewrite Hstep in Hm. change (_days_before_year 9999) with 3651694 in Hm.
    split; [destruct (_is_leap (year d)); lia|].
    split; [destruct (_is_leap (year d)); lia | tauto].
Qed.

Lemma datetime_add_hour_overflow_iff (d : datetime) :
  wf_datetime d = true ->
  datetime_add d (mk_delta 0 1 0 0 0) = Raise OverflowError
  <-> year d = 9999 /\ month d = 12 /\ day d = 31 /\ hour d = 23.
Proof.
  unfold wf_datetime. rewrite !andb_true_iff. intros [[Hd Ht] _].
  destruct (toordinal_le_max d Hd) as [Hord Hmax].
  unfold check_time_fields in Ht. rewrite !andb_true_iff, !Z.leb_le in Ht.
  unfold datetime_add. cbv zeta. rewrite hour_delta.
  set (delta := timedelta_add _ _).
  assert (Hdays : td_days delta
                  = toordinal d + (if hour d =? 23 then 1 else 0)).
  { subst delta. unfold timedelta_add, mk_delta, DAY_US. simpl.
    set (o := toordinal d) in *. clearbody o.
    destruct (Z.eqb_spec (hour d) 23); Z.div_mod_to_equations; lia. }
  unfold _MAXORDINAL in *.
  destruct ((0 <? td_days delta) && (td_days delta <=? 3652059)) eqn:Hc.
  - destruct (_ord2ymd (td_days delta)) as [[y m] dd].
    split; [discriminate|].
    intros (Hy & Hm & Hdd & Hh).
    apply andb_true_iff in Hc as [_ Hc]. apply Z.leb_le in Hc.
    rewrite Hdays, Hh in Hc. simpl in Hc.
    pose proof (proj2 Hmax (conj Hy (conj Hm Hdd))). lia.
  - split; [intros _|reflexivity].
    apply andb_false_iff in Hc. rewrite Z.ltb_ge, Z.leb_gt in Hc.
    rewrite Hdays in Hc.
    destruct (Z.eqb_spec (hour d) 23) as [Hh|Hh]; [|lia].
    assert (toordinal d = 3652059) as Hm by lia.
    apply Hmax in Hm. tauto.
Qed.

(** X5. When the one-hour default applies and the combined start string
    parses, the formatter raises [OverflowError] exactly when the start lies
    in the last hour of 9999-12-31; [add_event_via_mcp] then answers
    [False]. *)
Theorem X5_default_hour_overflow (mcp_call : GcalEvent -> Res bool)
    (e : Event) (d : datetime) :
  truthy (dict_get e "start_time") = true ->
  truthy (dict_get e "end_time") = false ->
  fromisoformat (combine_date_time (dict_get e "start_date")
                                   (dict_get e "start_time")) = Ok d ->
  (format_event_for_gcal e = Raise OverflowError
   <-> year d = 9999 /\ month d = 12 /\ day d = 31 /\ hour d = 23)
  /\ (format_event_for_gcal e = Raise OverflowError ->
      add_event_via_mcp mcp_call e = Ok false).
Proof.
  intros Hs He Hp. split.
  - rewrite <- (datetime_add_hour_overflow_iff d (fromisoformat_wf _ _ Hp)).
    rewrite format_event_for_gcal_steps, (resolve_end_default_hour e Hs He), Hp.
    cbn [bind].
    destruct (datetime_add d (mk_delta 0 1 0 0 0)) as [d'|x] eqn:Ha; cbn [bind].
    + destruct (resolve_location_returns e) as [l ->]. cbn [bind].
      split; [|discriminate].
      destruct (resolve_description e) as [ds|y] eqn:Hd; cbn [bind];
        [discriminate|].
      intros [= ->]. apply resolve_description_raises in Hd as [Hd _].
      discriminate Hd.
    + rewrite (datetime_add_raises _ _ _ Ha). tauto.
  - intros Hf.
    rewrite add_event_via_mcp_outcome. unfold record_fails. rewrite Hf.
    destruct (validate_event_data e) as [[|]|y]; reflexivity.
Qed.

Lemma X5_witness :
  let e : Event :=
    {[ "title" := VStr "Midnight"; "start_date" := VStr "9999-12-31";
       "start_time" := VStr "23:30" ]} in
  format_event_for_gcal e = Raise OverflowError
  /\ add_event_via_mcp _simulate_mcp_call e = Ok false.
Proof.
  intros e.
  destruct (X5_default_hour_overflow _simulate_mcp_call e
              (mk_datetime 9999 12 31 23 30 0 0 None) eq_refl eq_refl eq_refl)
    as [Hiff Hadd].
  assert (Hf : format_event_for_gcal e = Raise OverflowError).
  { apply Hiff. repeat split; reflexivity. }
  split; [exact Hf | exact (Hadd Hf)].
Defined.

(** ** More on the batch methods *)

(** X6. [add_event_via_mcp] answers [True] exactly when the record is
    valid, the formatter returns an event, and the MCP call answers [True]
    on that event. *)
Theorem X6_add_event_via_mcp_true_iff (mcp_call : GcalEvent -> Res bool)
    (e : Event) :
  add_event_via_mcp mcp_call e = Ok true
  <-> validate_event_data e = Ok true
      /\ exists g, format_event_for_gcal e = Ok g /\ mcp_call g = Ok true.
Proof.
  rewrite add_event_via_mcp_outcome. unfold record_fails. split.
  - destruct (validate_event_data e) as [[|]|x]; try discriminate.
    destruct (format_event_for_gcal e) as [g|x]; try discriminate.
    destruct (mcp_call g) as [[|]|x] eqn:Hs; try discriminate.
    intros _. split; [reflexivity|]. exists g. auto.
  - intros (-> & g & -> & ->). reflexivity.
Qed.

(** X7. Neither batch method short-circuits: the counters of a list are
    the sums of the counters of any two stretches it is cut into. *)
Theorem X7_batches_are_additive (mcp_call : GcalEvent -> Res bool)
    (calendar_add : Event -> Res bool) (pre post : list Event) :
  (exists r1 r2,
     batch_add_events mcp_call pre = Ok r1
     /\ batch_add_events mcp_call post = Ok r2
     /\ batch_add_events mcp_call (pre ++ post) = Ok (results_add r1 r2))
  /\ (exists r1 r2,
        process_events calendar_add pre = Ok r1
        /\ process_events calendar_add post = Ok r2
        /\ process_events calendar_add (pre ++ post) = Ok (results_add r1 r2)).
Proof.
  split.
  - exact (for_each_count_app _ _ (add_event_via_mcp_outcome mcp_call) pre post).
  - exact (for_each_count_app _ _ (add_event_to_calendar_outcome calendar_add)
             pre post).
Qed.

Lemma count_if_Permutation {A} (p : A -> bool) (l1 l2 : list A) :
  l1 ≡ₚ l2 -> count_if p l1 = count_if p l2.
Proof.
  induction 1 as [|x l1 l2 _ IH|x y l|l1 l2 l3 _ IH1 _ IH2]; simpl.
  - reflexivity.
  - rewrite IH. reflexivity.
  - lia.
  - congruence.
Qed.

(** X8. The counters do not depend on the order of the records: two lists
    with the same records, in any order, get the same result from either
    batch method. *)
Theorem X8_batches_ignore_order (mcp_call : GcalEvent -> Res bool)
    (calendar_add : Event -> Res bool) (events events' : list Event) :
  events ≡ₚ events' ->
  batch_add_events mcp_call events = batch_add_events mcp_call events'
  /\ process_events calendar_add events = process_events calendar_add events'.
Proof.
  intros Hp. rewrite !batch_add_events_tally, !process_events_tally.
  rewrite !(count_if_Permutation _ _ _ Hp), (Permutation_length Hp).
  split; reflexivity.
Qed.

Lemma X8_witness :
  let a : Event := {[ "title" := VStr "A"; "start_date" := VStr "2025-01-01" ]} in
  let b : Event := {[ "title" := VStr "B" ]} in
  batch_add_events _simulate_mcp_call [a; b]
  = batch_add_events _simulate_mcp_call [b; a].
Proof.
  intros a b.
  exact (proj1 (X8_batches_ignore_order _simulate_mcp_call
                  (fun _ => Ok true) [a; b] [b; a] (perm_swap b a []))).
Defined.

(** X9. Run over the calendar manager, the agent's [process_events]
    returns what the manager's own [batch_add_events] returns: the extra
    [try]/[except] of [add_event_to_calendar] never changes an outcome. *)
Theorem X9_process_events_is_batch_add_events
    (mcp_call : GcalEvent -> Res bool) (events : list Event) :
  process_events (add_event_via_mcp mcp_call) events
  = batch_add_events mcp_call events.
Proof.
  rewrite process_events_tally, batch_add_events_tally.
  rewrite (count_if_ext _ _ events (sink_fails_via_mcp mcp_call)).
  reflexivity.
Qed.

(** ** More on the orchestration *)

Lemma scrape_fold_lookup (f : string -> string) (urls : list string)
    (m : gmap string string) (u : string) :
  fold_left (fun acc url => <[url := f url]> acc) urls m !! u
  = if decide (u ∈ urls) then Some (f u) else m !! u.
Proof.
  revert m. induction urls as [|x urls IH]; intros m; cbn [fold_left].
  - case_decide as H; [inversion H | reflexivity].
  - rewrite IH.
    destruct (decide (u ∈ urls)) as [Hin|Hnin];
      destruct (decide (u ∈ x :: urls)) as [Hin'|Hnin']; try reflexivity.
    + exfalso. apply Hnin'. apply elem_of_cons. right. exact Hin.
    + apply elem_of_cons in Hin' as [-> | Hin'];
        [apply lookup_insert_eq | tauto].
    + apply lookup_insert_ne. intros ->. apply Hnin'. apply elem_of_cons.
      left. reflexivity.
Qed.

Lemma scrape_fold_size (f : string -> string) (urls : list string)
    (m : gmap string string) :
  (size (fold_left (fun acc url => <[url := f url]> acc) urls m)
   <= size m + length urls)%nat.
Proof.
  revert m. induction urls as [|x urls IH]; intros m; simpl; [lia|].
  etransitivity; [apply IH|].
  destruct (m !! x) as [v|] eqn:Hx.
  - rewrite map_size_insert_Some by eauto. lia.
  - rewrite map_size_insert_None by exact Hx. lia.
Qed.

(** X10. The scraped mapping has one entry for each distinct URL of the
    list and no other: looking a URL up gives what [scrape_webpage] returns
    for it when the URL is in the list and nothing otherwise, so a URL given
    twice is held once. *)
Theorem X10_scraped_mapping (scrape_webpage : string -> string)
    (urls : list string) (u : string) :
  scrape_multiple_pages scrape_webpage urls !! u
  = (if decide (u ∈ urls) then Some (scrape_webpage u) else None)
  /\ (size (scrape_multiple_pages scrape_webpage urls) <= length urls)%nat.
Proof.
  unfold scrape_multiple_pages. split.
  - rewrite scrape_fold_lookup. destruct (decide (u ∈ urls)); [reflexivity|].
    apply lookup_empty.
  - pose proof (scrape_fold_size scrape_webpage urls ∅) as H.
    rewrite map_size_empty in H. exact H.
Qed.

(** X11. [run_agent] returns normally whatever its collaborators do, and
    in its summary the events added and the events failed add up to the
    events found, while [urls_processed] is the length of the URL list, at
    least the number of pages held in the scraped mapping. *)
Theorem X11_summary_adds_up (scrape_webpage : string -> string)
    (extract : gmap string string -> list Event)
    (calendar_add : Event -> Res bool) (urls : list string) :
  exists s,
    run_agent scrape_webpage extract calendar_add urls = Ok s
    /\ (events_added_successfully s + events_failed s = events_found s)%nat
    /\ urls_processed s = length urls
    /\ (size (scrape_multiple_pages scrape_webpage urls) <= urls_processed s)%nat.
Proof.
  unfold run_agent. rewrite process_events_tally. cbn [bind].
  eexists. split; [reflexivity|]. simpl.
  split; [|split; [reflexivity|]].
  - pose proof (count_if_le (sink_fails calendar_add)
                  (extract (scrape_multiple_pages scrape_webpage urls))). lia.
  - pose proof (scrape_fold_size scrape_webpage urls ∅) as H.
    rewrite map_size_empty in H. exact H.
Qed.

(** * The scraper, the extractor and the demonstration agent *)

Import Text OrderedDict TextSpec.

(** ** Stripping *)

Lemma linebreak_is_space (c : ascii) : is_linebreak c = true -> is_space c = true.
Proof.
  unfold is_linebreak, is_space. cbv zeta.
  rewrite !orb_true_iff, !andb_true_iff, !N.leb_le, !N.eqb_eq. lia.
Qed.

Lemma lstrip_ink (s : string) : ink (lstrip s) = ink s.
Proof.
  induction s as [|c r IH]; [reflexivity|]. simpl.
  destruct (is_space c) eqn:E; [exact IH|]. simpl. rewrite E. reflexivity.
Qed.

Lemma rstrip_cons (c : ascii) (r : string) :
  rstrip (String c r)
  = match rstrip r with
    | EmptyString => if is_space c then EmptyString else String c EmptyString
    | r' => String c r'
    end.
Proof. reflexivity. Qed.

Lemma rstrip_ink (s : string) : ink (rstrip s) = ink s.
Proof.
  induction s as [|c r IH]; [reflexivity|]. rewrite rstrip_cons.
  destruct (rstrip r) as [|x t] eqn:E.
  - simpl in IH. cbn [ink]. rewrite <- IH.
    destruct (is_space c) eqn:Ec; [reflexivity|]. cbn [ink]. rewrite Ec.
    reflexivity.
  - cbn [ink]. rewrite <- IH. reflexivity.
Qed.

Lemma strip_ink (s : string) : ink (strip s) = ink s.
Proof. unfold strip. rewrite rstrip_ink. apply lstrip_ink. Qed.

Lemma lstrip_all_chars (p : ascii -> bool) (s : string) :
  all_chars p s = true -> all_chars p (lstrip s) = true.
Proof.
  induction s as [|c r IH]; [reflexivity|]. simpl.
  intros H. destruct (is_space c); [|exact H].
  apply andb_true_iff in H as [_ H]. exact (IH H).
Qed.

Lemma rstrip_all_chars (p : ascii -> bool) (s : string) :
  all_chars p s = true -> all_chars p (rstrip s) = true.
Proof.
  induction s as [|c r IH]; [reflexivity|]. rewrite rstrip_cons. cbn [all_chars].
  intros H. apply andb_true_iff in H as [Hc H]. specialize (IH H).
  destruct (rstrip r) as [|x t].
  - destruct (is_space c); [reflexivity|]. cbn [all_chars]. rewrite Hc. reflexivity.
  - cbn [all_chars] in *. rewrite Hc. exact IH.
Qed.

Lemma strip_all_chars (p : ascii -> bool) (s : string) :
  all_chars p s = true -> all_chars p (strip s) = true.
Proof. intros H. apply rstrip_all_chars, lstrip_all_chars, H. Qed.

Lemma no_double_space_cons (a : ascii) (s : string) :
  no_double_space (String a s) = true -> no_double_space s = true.
Proof.
  destruct s as [|b t]; [reflexivity|]. cbn [no_double_space].
  intros H. apply andb_true_iff in H as [_ H]. exact H.
Qed.

Lemma lstrip_no_double_space (s : string) :
  no_double_space s = true -> no_double_space (lstrip s) = true.
Proof.
  induction s as [|c r IH]; [reflexivity|]. intros H. cbn [lstrip].
  destruct (is_space c); [|exact H].
  apply IH. exact (no_double_space_cons _ _ H).
Qed.

Lemma rstrip_no_double_space (s : string) :
  no_double_space s = true -> no_double_space (rstrip s) = true.
Proof.
  induction s as [|c r IH]; [reflexivity|]. intros H. rewrite rstrip_cons.
  pose proof (IH (no_double_space_cons _ _ H)) as IH'.
  destruct (rstrip r) as [|x t] eqn:E.
  - destruct (is_space c); reflexivity.
  - destruct r as [|y u]; [discriminate E|].
    assert (x = y) as ->.
    { rewrite rstrip_cons in E. destruct (rstrip u).
      - destruct (is_space y); [discriminate|]. congruence.
      - congruence. }
    cbn [no_double_space] in H |- *.
    apply andb_true_iff in H as [H1 _]. rewrite H1. exact IH'.
Qed.

Lemma strip_no_double_space (s : string) :
  no_double_space s = true -> no_double_space (strip s) = true.
Proof. intros H. apply rstrip_no_double_space, lstrip_no_double_space, H. Qed.

Lemma lstrip_head (s : string) :
  match lstrip s with
  | EmptyString => True
  | String c _ => is_space c = false
  end.
Proof.
  induction s as [|c r IH]; [exact I|]. cbn [lstrip].
  destruct (is_space c) eqn:E; [exact IH | exact E].
Qed.

Lemma lstrip_fixed (s : string) :
  lstrip s = s
  <-> match s with EmptyString => True | String c _ => is_space c = false end.
Proof.
  destruct s as [|c r]; [tauto|]. cbn [lstrip]. split.
  - intros H. destruct (is_space c) eqn:E; [|reflexivity].
    pose proof (f_equal String.length H) as HL. simpl in HL.
    assert (Hle : forall t, (String.length (lstrip t) <= String.length t)%nat).
    { clear. induction t as [|x t IH]; simpl; [lia|].
      destruct (is_space x); simpl; lia. }
    pose proof (Hle r). lia.
  - intros ->. reflexivity.
Qed.

Lemma rstrip_idem (s : string) : rstrip (rstrip s) = rstrip s.
Proof.
  induction s as [|c r IH]; [reflexivity|]. rewrite rstrip_cons.
  destruct (rstrip r) as [|x t] eqn:E.
  - destruct (is_space c) eqn:Ec; [reflexivity|].
    rewrite rstrip_cons. simpl. rewrite Ec. reflexivity.
  - rewrite rstrip_cons, IH. reflexivity.
Qed.

Lemma rstrip_head (s : string) (c : ascii) (r : string) :
  s = String c r -> is_space c = false ->
  exists r', rstrip s = String c r'.
Proof.
  intros -> Hc. rewrite rstrip_cons. destruct (rstrip r).
  - rewrite Hc. eauto.
  - eauto.
Qed.

Lemma strip_trimmed (s : string) : trimmed (strip s).
Proof.
  unfold trimmed, strip. split; [|apply rstrip_idem].
  apply lstrip_fixed.
  pose proof (lstrip_head s) as H.
  destruct (lstrip s) as [|c r] eqn:E; [exact I|].
  destruct (rstrip_head _ c r eq_refl H) as [r' ->]. exact H.
Qed.

Lemma trimmed_strip (s : string) : trimmed s -> strip s = s.
Proof. intros [H1 H2]. unfold strip. rewrite H1. exact H2. Qed.

(** Induction on strings two characters at a time. *)
Lemma string_ind2 (P : string -> Prop) :
  P EmptyString ->
  (forall c, P (String c EmptyString)) ->
  (forall c c' r, P r -> P (String c' r) -> P (String c (String c' r))) ->
  forall s, P s.
Proof.
  intros H0 H1 H2 s.
  enough (P s /\ forall c, P (String c s)) by tauto.
  induction s as [|c' r [IH1 IH2]]; [split; [exact H0 | exact H1]|].
  split; [apply IH2|]. intros c. apply H2; [exact IH1 | apply IH2].
Qed.

Lemma concat_str_cons (x : string) (l : list string) :
  concat_str (x :: l) = x +:+ concat_str l.
Proof. reflexivity. Qed.

Lemma concat_cons_first (c : ascii) (l : list string) :
  concat_str (cons_first c l) = String c (concat_str l).
Proof. destruct l; reflexivity. Qed.

Lemma ink_append (a b : string) : ink (a +:+ b) = ink a +:+ ink b.
Proof.
  induction a as [|c a IH]; [reflexivity|].
  rewrite append_cons. cbn [ink]. rewrite IH.
  destruct (is_space c); reflexivity.
Qed.

Lemma all_chars_append (p : ascii -> bool) (a b : string) :
  all_chars p (a +:+ b) = all_chars p a && all_chars p b.
Proof.
  induction a as [|c a IH]; [reflexivity|].
  rewrite append_cons. cbn [all_chars]. rewrite IH, andb_assoc. reflexivity.
Qed.

Lemma Forall_cons_first (P : string -> Prop) (c : ascii) (l : list string) :
  P (String c EmptyString) ->
  (forall x, P x -> P (String c x)) ->
  Forall P l -> Forall P (cons_first c l).
Proof.
  intros H1 H2 H. destruct H as [|x l Hx Hl]; simpl.
  - constructor; [exact H1 | constructor].
  - constructor; [apply H2, Hx | exact Hl].
Qed.

(** ** Lines *)

Lemma splitlines_cons2 (c c' : ascii) (r : string) :
  splitlines (String c (String c' r))
  = if is_linebreak c
    then if Ascii.eqb c CR && Ascii.eqb c' LF
         then EmptyString :: splitlines r
         else EmptyString :: splitlines (String c' r)
    else cons_first c (splitlines (String c' r)).
Proof. reflexivity. Qed.

Lemma split_pair_cons2 (a b c c' : ascii) (r : string) :
  split_pair a b (String c (String c' r))
  = if Ascii.eqb c a && Ascii.eqb c' b
    then EmptyString :: split_pair a b r
    else cons_first c (split_pair a b (String c' r)).
Proof. reflexivity. Qed.

Lemma splitlines_no_linebreak (s : string) :
  Forall (fun l => all_chars not_linebreak l = true) (splitlines s).
Proof.
  induction s as [| c | c c' r IH1 IH2] using string_ind2.
  - constructor.
  - simpl. destruct (is_linebreak c) eqn:E; repeat constructor.
    simpl. unfold not_linebreak. rewrite E. reflexivity.
  - rewrite splitlines_cons2. destruct (is_linebreak c) eqn:E.
    + destruct (Ascii.eqb c CR && Ascii.eqb c' LF); constructor;
        try reflexivity; assumption.
    + apply Forall_cons_first; [| |exact IH2].
      * simpl. unfold not_linebreak. rewrite E. reflexivity.
      * intros x Hx. simpl. unfold not_linebreak at 1. rewrite E. exact Hx.
Qed.

Lemma splitlines_ink (s : string) : ink (concat_str (splitlines s)) = ink s.
Proof.
  induction s as [| c | c c' r IH1 IH2] using string_ind2.
  - reflexivity.
  - simpl. destruct (is_linebreak c) eqn:E.
    + simpl. rewrite (linebreak_is_space c E). reflexivity.
    + reflexivity.
  - rewrite splitlines_cons2. destruct (is_linebreak c) eqn:E.
    + pose proof (linebreak_is_space c E) as Hc.
      destruct (Ascii.eqb c CR && Ascii.eqb c' LF) eqn:E2.
      * apply andb_true_iff in E2 as [_ E2]. apply Ascii.eqb_eq in E2.
        subst c'. rewrite concat_str_cons, append_nil_l. cbn [ink].
        rewrite Hc. change (is_space LF) with true. cbv iota. exact IH1.
      * rewrite concat_str_cons, append_nil_l. cbn [ink]. rewrite Hc.
        exact IH2.
    + rewrite concat_cons_first. cbn [ink].
      destruct (is_space c); rewrite IH2; reflexivity.
Qed.

Lemma splitlines_single (s : string) :
  all_chars not_linebreak s = true -> s <> EmptyString -> splitlines s = [s].
Proof.
  induction s as [|c r IH]; [congruence|]. intros H _.
  cbn [all_chars] in H. apply andb_true_iff in H as [Hc Hr].
  unfold not_linebreak in Hc. apply negb_true_iff in Hc.
  cbn [splitlines]. rewrite Hc.
  destruct r as [|c' r']; [reflexivity|].
  rewrite (IH Hr) by discriminate. reflexivity.
Qed.

(** ** Cutting at double spaces *)

Lemma no_double_space_cons2 (a b : ascii) (t : string) :
  no_double_space (String a (String b t))
  = negb (Ascii.eqb a " " && Ascii.eqb b " ") && no_double_space (String b t).
Proof. reflexivity. Qed.

Lemma split_pair_first (a b : ascii) (s : string) :
  match split_pair a b s with
  | [] => False
  | p0 :: _ =>
      p0 = EmptyString
      \/ exists c t t', s = String c t /\ p0 = String c t'
  end.
Proof.
  induction s as [| c | c c' r IH1 IH2] using string_ind2.
  - left. reflexivity.
  - right. simpl. eauto.
  - rewrite split_pair_cons2. destruct (Ascii.eqb c a && Ascii.eqb c' b).
    + left. reflexivity.
    + destruct (split_pair a b (String c' r)) as [|p0 ps]; [contradiction|].
      right. simpl. eauto.
Qed.

Lemma split_pair_no_double_space (s : string) :
  Forall (fun p => no_double_space p = true) (split_pair " " " " s).
Proof.
  induction s as [| c | c c' r IH1 IH2] using string_ind2.
  - repeat constructor.
  - repeat constructor.
  - rewrite split_pair_cons2.
    destruct (Ascii.eqb c " " && Ascii.eqb c' " ") eqn:E.
    + constructor; [reflexivity | exact IH1].
    + pose proof (split_pair_first " " " " (String c' r)) as Hf.
      destruct (split_pair " " " " (String c' r)) as [|p0 ps]; [contradiction|].
      inversion IH2 as [|? ? Hp0 Hps]; subst. simpl. constructor; [|exact Hps].
      destruct Hf as [-> | (x & t & t' & Hx & ->)]; [reflexivity|].
      injection Hx as <- <-. rewrite no_double_space_cons2, E. exact Hp0.
Qed.

Lemma split_pair_all_chars (p : ascii -> bool) (a b : ascii) (s : string) :
  all_chars p s = true ->
  Forall (fun x => all_chars p x = true) (split_pair a b s).
Proof.
  induction s as [| c | c c' r IH1 IH2] using string_ind2; intros H.
  - repeat constructor.
  - repeat constructor. exact H.
  - rewrite split_pair_cons2. cbn [all_chars] in H.
    apply andb_true_iff in H as [Hc H].
    destruct (Ascii.eqb c a && Ascii.eqb c' b).
    + constructor; [reflexivity|]. apply IH1.
      cbn [all_chars] in H. apply andb_true_iff in H. tauto.
    + apply Forall_cons_first; [| |exact (IH2 H)].
      * simpl. rewrite Hc. reflexivity.
      * intros x Hx. simpl. rewrite Hc. exact Hx.
Qed.

Lemma split_pair_ink (s : string) :
  ink (concat_str (split_pair " " " " s)) = ink s.
Proof.
  induction s as [| c | c c' r IH1 IH2] using string_ind2.
  - reflexivity.
  - reflexivity.
  - rewrite split_pair_cons2.
    destruct (Ascii.eqb c " " && Ascii.eqb c' " ") eqn:E.
    + apply andb_true_iff in E as [E1 E2].
      apply Ascii.eqb_eq in E1, E2. subst c c'.
      rewrite concat_str_cons, append_nil_l, IH1. reflexivity.
    + rewrite concat_cons_first. cbn [ink].
      destruct (is_space c); rewrite IH2; reflexivity.
Qed.

Lemma split_pair_single (s : string) :
  no_double_space s = true -> split_pair " " " " s = [s].
Proof.
  induction s as [|c r IH]; [reflexivity|]. intros H.
  destruct r as [|c' r']; [reflexivity|].
  rewrite split_pair_cons2. pose proof H as H'.
  rewrite no_double_space_cons2 in H'.
  apply andb_true_iff in H' as [E Hr]. apply negb_true_iff in E.
  rewrite E, (IH Hr). reflexivity.
Qed.

(** ** Joining *)

Lemma rstrip_fixed (s : string) :
  rstrip s = s <-> s = EmptyString \/ ends_nonspace s = true.
Proof.
  induction s as [|c r IH]; [tauto|]. rewrite rstrip_cons. split.
  - intros H. right. destruct (rstrip r) as [|x t] eqn:E.
    + destruct (is_space c) eqn:Ec; [discriminate|].
      injection H as <-. simpl. rewrite Ec. reflexivity.
    + injection H as H. destruct (proj1 IH H) as [-> | Hr]; [discriminate E|].
      destruct r; [discriminate|exact Hr].
  - intros [H | H]; [discriminate|].
    destruct r as [|x t].
    + simpl in H. apply negb_true_iff in H. simpl. rewrite H. reflexivity.
    + rewrite (proj2 IH (or_intror H)). reflexivity.
Qed.

Lemma trimmed_iff (s : string) :
  trimmed s
  <-> s = EmptyString \/ (starts_nonspace s = true /\ ends_nonspace s = true).
Proof.
  unfold trimmed. rewrite lstrip_fixed, rstrip_fixed.
  destruct s as [|c r]; [tauto|]. simpl starts_nonspace.
  rewrite negb_true_iff. split.
  - intros [H [H' | H']]; [discriminate | tauto].
  - intros [H | [H H']]; [discriminate | tauto].
Qed.

Lemma ends_nonspace_append (a b : string) :
  ends_nonspace b = true -> ends_nonspace (a +:+ b) = true.
Proof.
  intros Hb. induction a as [|c a IH]; [exact Hb|].
  rewrite append_cons. destruct (a +:+ b) eqn:E; [discriminate IH|].
  exact IH.
Qed.

Lemma no_double_space_append (a b : string) :
  no_double_space a = true -> ends_nonspace a = true ->
  no_double_space b = true -> no_double_space (a +:+ b) = true.
Proof.
  intros Ha He Hb. induction a as [|c a IH]; [discriminate|].
  rewrite append_cons. destruct a as [|c' a'].
  - rewrite append_nil_l. destruct b as [|x b']; [reflexivity|].
    rewrite no_double_space_cons2, Hb, andb_true_r.
    simpl in He. apply negb_true_iff in He.
    destruct (Ascii.eqb_spec c " ") as [->|]; [discriminate He | reflexivity].
  - rewrite append_cons, no_double_space_cons2.
    rewrite no_double_space_cons2 in Ha.
    apply andb_true_iff in Ha as [H1 H2]. rewrite H1.
    rewrite <- append_cons. exact (IH H2 He).
Qed.

Lemma join_cons2 (sep x y : string) (r : list string) :
  join sep (x :: y :: r) = x +:+ sep +:+ join sep (y :: r).
Proof. reflexivity. Qed.

Lemma join_chunks (p : ascii -> bool) (l : list string) :
  p " "%char = true -> Forall (chunk_ok p) l -> l <> [] ->
  chunk_ok p (join " " l).
Proof.
  intros Hp H. induction H as [|x l Hx Hl IH]; [congruence|]. intros _.
  destruct l as [|y r]; [exact Hx|].
  rewrite join_cons2.
  destruct (IH ltac:(discriminate)) as (Js & Je & Jn & Ja).
  destruct Hx as (Xs & Xe & Xn & Xa).
  set (J := join " " (y :: r)) in *.
  repeat split.
  - destruct x; [discriminate|]. exact Xs.
  - apply ends_nonspace_append, ends_nonspace_append, Je.
  - apply no_double_space_append; [exact Xn | exact Xe |].
    change (" " +:+ J)%string with (String " " J).
    destruct J as [|c t]; [discriminate|]. rewrite no_double_space_cons2.
    rewrite Jn, andb_true_r. simpl in Js. apply negb_true_iff in Js.
    destruct (Ascii.eqb_spec c " ") as [->|]; [discriminate Js|].
    rewrite andb_false_r. reflexivity.
  - rewrite !all_chars_append, Xa, Ja. simpl. rewrite Hp. reflexivity.
Qed.

Lemma join_ink (l : list string) : ink (join " " l) = ink (concat_str l).
Proof.
  induction l as [|x l IH]; [reflexivity|].
  destruct l as [|y r].
  - simpl. rewrite append_nil_r. reflexivity.
  - rewrite join_cons2, concat_str_cons, !ink_append, IH. reflexivity.
Qed.

Lemma filter_nonempty_ink (l : list string) :
  ink (concat_str (List.filter nonempty l)) = ink (concat_str l).
Proof.
  induction l as [|x l IH]; [reflexivity|]. simpl.
  destruct x as [|c x]; simpl; [exact IH|].
  rewrite !ink_append, IH. reflexivity.
Qed.

Lemma concat_str_app (l1 l2 : list string) :
  concat_str (l1 ++ l2) = concat_str l1 +:+ concat_str l2.
Proof.
  induction l1 as [|x l1 IH]; [reflexivity|].
  simpl. rewrite IH, append_assoc. reflexivity.
Qed.

Lemma map_strip_ink (l : list string) :
  ink (concat_str (map strip l)) = ink (concat_str l).
Proof.
  induction l as [|x l IH]; [reflexivity|]. simpl.
  rewrite !ink_append, strip_ink, IH. reflexivity.
Qed.

(** ** The clean-up of scraped text *)

Lemma clean_text_chunks (text : string) :
  AgentImpl.clean_text text = join " " (List.filter nonempty (chunks_of text)).
Proof. reflexivity. Qed.

Lemma flat_map_pieces_ink (lines : list string) :
  ink (concat_str
         (flat_map (fun line => map strip (split_pair " " " " line)) lines))
  = ink (concat_str lines).
Proof.
  induction lines as [|x l IH]; [reflexivity|].
  cbn [flat_map]. rewrite concat_str_app, concat_str_cons, !ink_append, IH.
  rewrite map_strip_ink, split_pair_ink. reflexivity.
Qed.

Lemma chunks_of_ink (text : string) :
  ink (concat_str (chunks_of text)) = ink text.
Proof.
  unfold chunks_of.
  rewrite flat_map_pieces_ink, map_strip_ink. apply splitlines_ink.
Qed.

Lemma chunks_of_ok (text : string) :
  Forall (chunk_ok not_linebreak) (List.filter nonempty (chunks_of text)).
Proof.
  unfold chunks_of.
  pose proof (splitlines_no_linebreak text) as H.
  induction H as [|x l Hx Hl IH]; [constructor|].
  cbn [map flat_map]. rewrite List.filter_app. apply Forall_app. split; [|exact IH].
  pose proof (split_pair_no_double_space (strip x)) as Hn.
  pose proof (split_pair_all_chars not_linebreak " " " " (strip x)
                (strip_all_chars _ _ Hx)) as Ha.
  induction (split_pair " " " " (strip x)) as [|p ps IHp]; [constructor|].
  inversion Hn as [|? ? Hn1 Hn2]; inversion Ha as [|? ? Ha1 Ha2]; subst.
  cbn [map List.filter].
  destruct (nonempty (strip p)) eqn:E; [|exact (IHp Hn2 Ha2)].
  constructor; [|exact (IHp Hn2 Ha2)].
  destruct (proj1 (trimmed_iff (strip p)) (strip_trimmed p)) as [Hz | [Hs He]].
  - rewrite Hz in E. discriminate E.
  - repeat split; [exact Hs | exact He | |].
    + apply strip_no_double_space, Hn1.
    + apply strip_all_chars, Ha1.
Qed.

(** X12. The clean-up of scraped text only touches white space: the
    characters that are not white space come out all, and in their order. *)
Theorem X12_clean_text_keeps_ink (text : string) :
  ink (AgentImpl.clean_text text) = ink text.
Proof.
  rewrite clean_text_chunks, join_ink, filter_nonempty_ink.
  apply chunks_of_ink.
Qed.

Lemma chunk_ok_clean_form (s : string) :
  chunk_ok not_linebreak s -> clean_form s.
Proof.
  intros (Hs & He & Hn & Ha). split; [exact Ha|]. split; [exact Hn|].
  apply trimmed_iff. right. auto.
Qed.

Lemma clean_text_clean_form (text : string) : clean_form (AgentImpl.clean_text text).
Proof.
  rewrite clean_text_chunks.
  pose proof (chunks_of_ok text) as H.
  destruct (List.filter nonempty (chunks_of text)) as [|x l] eqn:E.
  - repeat split.
  - apply chunk_ok_clean_form, join_chunks; [reflexivity | exact H | discriminate].
Qed.

(** X13. Cleaned text is one line, has no two spaces in a row, and neither
    starts nor ends with white space. *)
Theorem X13_clean_text_form (text : string) :
  all_chars not_linebreak (AgentImpl.clean_text text) = true
  /\ no_double_space (AgentImpl.clean_text text) = true
  /\ strip (AgentImpl.clean_text text) = AgentImpl.clean_text text.
Proof.
  destruct (clean_text_clean_form text) as (Ha & Hn & Ht).
  split; [exact Ha|]. split; [exact Hn|]. apply trimmed_strip, Ht.
Qed.

Lemma clean_text_fixed (s : string) : clean_form s -> AgentImpl.clean_text s = s.
Proof.
  intros (Ha & Hn & Ht). destruct s as [|c r]; [reflexivity|].
  unfold AgentImpl.clean_text. cbv zeta.
  rewrite (splitlines_single _ Ha) by discriminate.
  cbn [map flat_map]. rewrite (trimmed_strip _ Ht).
  rewrite (split_pair_single _ Hn). cbn [map app]. rewrite (trimmed_strip _ Ht).
  reflexivity.
Qed.

(** X14. The clean-up is idempotent, and the texts it leaves unchanged are
    exactly those already in clean form. *)
Theorem X14_clean_text_idempotent (text : string) :
  AgentImpl.clean_text (AgentImpl.clean_text text) = AgentImpl.clean_text text
  /\ (AgentImpl.clean_text text = text <-> clean_form text).
Proof.
  split.
  - apply clean_text_fixed, clean_text_clean_form.
  - split.
    + intros H. rewrite <- H. apply clean_text_clean_form.
    + apply clean_text_fixed.
Qed.

(** ** Insertion order *)

Lemma setitem_to_map (k v : string) (d : odict) :
  to_map (setitem k v d) = <[k := v]> (to_map d).
Proof.
  unfold to_map. induction d as [|[k' v'] d IH]; [reflexivity|].
  cbn [setitem]. destruct (String.eqb_spec k k') as [->|Hne].
  - cbn [list_to_map foldr]. simpl. rewrite insert_insert_eq. reflexivity.
  - cbn [list_to_map foldr] in *. simpl in *. rewrite IH.
    apply insert_insert_ne. congruence.
Qed.

Lemma scrape_pages_to_map (f : string -> string) (urls : list string) :
  to_map (AgentImpl.scrape_pages f urls)
  = EventScrapingAgent.scrape_multiple_pages f urls.
Proof.
  unfold AgentImpl.scrape_pages, EventScrapingAgent.scrape_multiple_pages.
  change (∅ : gmap string string) with (to_map []).
  generalize (@nil (string * string)).
  induction urls as [|x urls IH]; intros d; [reflexivity|].
  cbn [fold_left]. rewrite IH, setitem_to_map. reflexivity.
Qed.

Lemma setitem_known (f : string -> string) (x : string) (l : list string) :
  setitem x (f x) (map (fun u => (u, f u)) l)
  = map (fun u => (u, f u)) (if mem x l then l else l ++ [x]).
Proof.
  induction l as [|k l IH]; [reflexivity|].
  cbn [map setitem]. unfold mem in *. cbn [existsb].
  destruct (String.eqb_spec x k) as [->|Hne]; [reflexivity|].
  cbn [orb]. rewrite IH. destruct (existsb (String.eqb x) l); reflexivity.
Qed.

Lemma filter_filter_bool {A} (p q : A -> bool) (l : list A) :
  List.filter p (List.filter q l) = List.filter (fun x => q x && p x) l.
Proof.
  induction l as [|x l IH]; [reflexivity|]. simpl.
  destruct (q x); simpl; [destruct (p x)|]; rewrite ?IH; reflexivity.
Qed.

Lemma filter_ext_bool {A} (p q : A -> bool) (l : list A) :
  (forall x, p x = q x) -> List.filter p l = List.filter q l.
Proof.
  intros H. induction l as [|x l IH]; [reflexivity|]. simpl.
  rewrite H, IH. reflexivity.
Qed.

Lemma mem_app (y : string) (l1 l2 : list string) :
  mem y (l1 ++ l2) = mem y l1 || mem y l2.
Proof. unfold mem. apply existsb_app. Qed.

Lemma scrape_fold_order (f : string -> string) (urls l0 : list string) :
  fold_left (fun d url => setitem url (f url) d) urls
            (map (fun u => (u, f u)) l0)
  = map (fun u => (u, f u))
        (l0 ++ List.filter (fun y => negb (mem y l0))
                           (AgentImpl.first_occurrences urls)).
Proof.
  revert l0. induction urls as [|x urls IH]; intros l0.
  - simpl. rewrite app_nil_r. reflexivity.
  - cbn [fold_left AgentImpl.first_occurrences List.filter].
    rewrite setitem_known, IH. f_equal.
    rewrite filter_filter_bool.
    destruct (mem x l0) eqn:Hx; cbn [negb].
    + f_equal. apply filter_ext_bool. intros y.
      destruct (String.eqb_spec y x) as [->|]; [rewrite Hx|]; reflexivity.
    + rewrite <- app_assoc. cbn [app]. f_equal. f_equal.
      apply filter_ext_bool. intros y. rewrite mem_app. unfold mem at 2.
      cbn [existsb]. rewrite orb_false_r, negb_orb, andb_comm. reflexivity.
Qed.

Lemma filter_true {A} (l : list A) : List.filter (fun _ => true) l = l.
Proof. induction l as [|x l IH]; [reflexivity|]. simpl. rewrite IH. reflexivity. Qed.

Lemma scrape_pages_order (f : string -> string) (urls : list string) :
  AgentImpl.scrape_pages f urls
  = map (fun u => (u, f u)) (AgentImpl.first_occurrences urls).
Proof.
  unfold AgentImpl.scrape_pages.
  pose proof (scrape_fold_order f urls []) as H. cbn [map app] in H.
  rewrite H. f_equal.
  rewrite (filter_ext_bool _ (fun _ => true)) by reflexivity.
  apply filter_true.
Qed.

(** X15. The scraped content lists the URLs in the order of their first
    occurrence, each once, with the text scraped for it; without the order
    it is the mapping from each URL of the list to its scraped text. *)
Theorem X15_scraped_content_order (page_text : string -> Res string)
    (exn_message : PyExn -> string) (urls : list string) :
  let scrape := AgentImpl.scrape_webpage page_text exn_message in
  AgentImpl.scrape_multiple_pages page_text exn_message urls
  = map (fun u => (u, scrape u)) (AgentImpl.first_occurrences urls)
  /\ to_map (AgentImpl.scrape_multiple_pages page_text exn_message urls)
     = EventScrapingAgent.scrape_multiple_pages scrape urls.
Proof.
  intros scrape. unfold AgentImpl.scrape_multiple_pages. split.
  - apply scrape_pages_order.
  - apply scrape_pages_to_map.
Qed.

(** ** Demo mode *)

Lemma existsb_filter_ne (P : string -> bool) (x : string) (l : list string) :
  P x = false ->
  existsb P (List.filter (fun y => negb (String.eqb y x)) l) = existsb P l.
Proof.
  intros Hx. induction l as [|y l IH]; [reflexivity|]. simpl.
  destruct (String.eqb_spec y x) as [->|Hne]; simpl.
  - rewrite Hx, IH. reflexivity.
  - rewrite IH. reflexivity.
Qed.

Lemma existsb_first_occurrences (P : string -> bool) (urls : list string) :
  existsb P (AgentImpl.first_occurrences urls) = existsb P urls.
Proof.
  induction urls as [|x urls IH]; [reflexivity|].
  cbn [AgentImpl.first_occurrences existsb].
  destruct (P x) eqn:Hx; [reflexivity|].
  rewrite (existsb_filter_ne P x _ Hx), IH. reflexivity.
Qed.

Lemma any_substantial_scraped (f : string -> string) (urls : list string) :
  AgentImpl.any_substantial (AgentImpl.scrape_pages f urls)
  = existsb (fun u => substantial (f u)) urls.
Proof.
  rewrite scrape_pages_order. unfold AgentImpl.any_substantial, values.
  rewrite map_map. cbn [snd].
  rewrite <- (existsb_first_occurrences (fun u => substantial (f u)) urls).
  induction (AgentImpl.first_occurrences urls) as [|x l IH]; [reflexivity|].
  simpl. rewrite IH. reflexivity.
Qed.

Lemma scrape_pages_cons (f : string -> string) (u : string) (urls : list string) :
  exists rest, AgentImpl.scrape_pages f (u :: urls) = (u, f u) :: rest.
Proof. rewrite scrape_pages_order. simpl. eauto. Qed.

Lemma demo_mode_extraction (page_text : string -> Res string)
    (exn_message : PyExn -> string)
    (json_loads : string -> Res (list Event)) (urls : list string) :
  let scrape := AgentImpl.scrape_webpage page_text exn_message in
  AgentImpl.extract_events_with_gemini None json_loads
    (AgentImpl.scrape_multiple_pages page_text exn_message urls)
  = match urls with
    | [] => []
    | u :: _ =>
        if existsb (fun x => substantial (scrape x)) urls
        then [AgentImpl.demo_event u]
        else []
    end.
Proof.
  intros scrape.
  unfold AgentImpl.extract_events_with_gemini, AgentImpl.extract_events_body,
    AgentImpl._generate_demo_events, AgentImpl.scrape_multiple_pages.
  fold scrape. rewrite any_substantial_scraped.
  destruct urls as [|u urls]; [reflexivity|].
  destruct (scrape_pages_cons scrape u urls) as [rest ->].
  cbn [AgentImpl.od_truthy andb].
  destruct (existsb _ (u :: urls)); reflexivity.
Qed.

(** X16. Without an API key the extractor reports at most one event, the
    fixed sample: it reports it when some scraped page has more than 100
    characters, with the first URL of the list as the event's url, and
    reports nothing otherwise or when no URL was given. *)
Theorem X16_demo_mode_extraction (page_text : string -> Res string)
    (exn_message : PyExn -> string)
    (json_loads : string -> Res (list Event)) (urls : list string) :
  let scrape := AgentImpl.scrape_webpage page_text exn_message in
  AgentImpl.extract_events_with_gemini None json_loads
    (AgentImpl.scrape_multiple_pages page_text exn_message urls)
  = match urls with
    | [] => []
    | u :: _ =>
        if existsb (fun x => substantial (scrape x)) urls
        then [AgentImpl.demo_event u]
        else []
    end.
Proof. exact (demo_mode_extraction page_text exn_message json_loads urls). Qed.

Lemma demo_event_is_added (u : string) :
  add_event_via_mcp _simulate_mcp_call (AgentImpl.demo_event u) = Ok true.
Proof. destruct u; reflexivity. Qed.

(** X17. Without an API key, and with the calendar manager as it stands,
    [run_agent] returns a summary in which every event found was added and
    none failed, the events found being none or the one sample event. *)
Theorem X17_demo_mode_run (page_text : string -> Res string)
    (exn_message : PyExn -> string)
    (json_loads : string -> Res (list Event)) (urls : list string) :
  exists events,
    AgentImpl.run_agent page_text exn_message None json_loads
      (add_event_via_mcp _simulate_mcp_call) urls
    = Ok (mk_summary (length urls) (length events) (length events) 0 events)
    /\ (events = []
        \/ exists u rest, urls = u :: rest /\ events = [AgentImpl.demo_event u]).
Proof.
  unfold AgentImpl.run_agent. cbv zeta.
  pose proof (demo_mode_extraction page_text exn_message json_loads urls) as He.
  cbv zeta in He. rewrite He.
  destruct urls as [|u rest].
  - exists []. split; [reflexivity | left; reflexivity].
  - destruct (existsb _ (u :: rest)).
    + exists [AgentImpl.demo_event u]. split; [|right; eauto].
      unfold process_events. cbn [for_each_count].
      unfold add_event_to_calendar. rewrite demo_event_is_added. reflexivity.
    + exists []. split; [reflexivity | left; reflexivity].
Qed.

(** ** Finding the JSON array in the answer *)

Lemma upto_last_None (c : ascii) (s : string) :
  AgentImpl.upto_last c s = None <-> no_char c s = true.
Proof.
  induction s as [|x r IH]; [tauto|]. cbn [AgentImpl.upto_last].
  rewrite no_char_cons, andb_true_iff, negb_true_iff, <- IH.
  rewrite (Ascii.eqb_sym c x).
  destruct (AgentImpl.upto_last c r); [intuition discriminate|].
  destruct (Ascii.eqb x c); intuition discriminate.
Qed.

Lemma upto_last_Some (c : ascii) (s t : string) :
  AgentImpl.upto_last c s = Some t
  <-> exists body post,
        s = body +:+ String c post /\ t = body +:+ String c EmptyString
        /\ no_char c post = true.
Proof.
  split.
  - revert t. induction s as [|x r IH]; intros t; [discriminate|].
    cbn [AgentImpl.upto_last].
    destruct (AgentImpl.upto_last c r) as [t'|] eqn:E.
    + intros [= <-]. destruct (IH t' eq_refl) as (body & post & -> & -> & Hp).
      exists (String x body), post. auto.
    + destruct (Ascii.eqb_spec x c) as [->|]; [|discriminate].
      intros [= <-]. exists EmptyString, r.
      split; [reflexivity|]. split; [reflexivity|]. apply upto_last_None, E.
  - intros (body & post & -> & -> & Hp).
    induction body as [|x b IH].
    + rewrite !append_nil_l. cbn [AgentImpl.upto_last].
      rewrite (proj2 (upto_last_None c post) Hp), Ascii.eqb_refl. reflexivity.
    + rewrite !append_cons. cbn [AgentImpl.upto_last]. rewrite IH. reflexivity.
Qed.

Lemma search_json_array_spec (s m : string) :
  AgentImpl.search_json_array s = Some m
  <-> exists pre body post,
        s = pre +:+ String "[" (body +:+ String "]" post)
        /\ m = String "[" (body +:+ String "]" EmptyString)
        /\ no_char "[" pre = true /\ no_char "]" post = true.
Proof.
  split.
  - induction s as [|x r IH]; [discriminate|].
    cbn [AgentImpl.search_json_array].
    destruct (Ascii.eqb_spec x "[") as [->|Hne].
    + destruct (AgentImpl.upto_last "]" r) as [t|] eqn:E; [|discriminate].
      intros [= <-]. apply upto_last_Some in E as (body & post & -> & -> & Hp).
      exists EmptyString, body, post. auto.
    + intros H. destruct (IH H) as (pre & body & post & -> & -> & H1 & H2).
      exists (String x pre), body, post.
      split; [reflexivity|]. split; [reflexivity|]. split; [|exact H2].
      rewrite no_char_cons, H1, andb_true_r. apply negb_true_iff.
      rewrite Ascii.eqb_sym. apply Ascii.eqb_neq. exact Hne.
  - intros (pre & body & post & -> & -> & H1 & H2).
    induction pre as [|x p IH].
    + rewrite append_nil_l. cbn [AgentImpl.search_json_array].
      rewrite Ascii.eqb_refl.
      rewrite (proj2 (upto_last_Some "]" _ (body +:+ String "]" EmptyString)))
        by eauto.
      reflexivity.
    + rewrite no_char_cons in H1. apply andb_true_iff in H1 as [Hx Hp].
      apply negb_true_iff in Hx. rewrite Ascii.eqb_sym in Hx.
      rewrite append_cons. cbn [AgentImpl.search_json_array]. rewrite Hx.
      exact (IH Hp).
Qed.

(** X18. The search for the JSON array in the model's answer succeeds
    exactly when a ["["] is followed somewhere by a ["]"], and what it finds
    runs from the first ["["] of the text through its last ["]"]. *)
Theorem X18_json_array_span (s m : string) :
  AgentImpl.search_json_array s = Some m
  <-> exists pre body post,
        s = pre +:+ String "[" (body +:+ String "]" post)
        /\ m = String "[" (body +:+ String "]" EmptyString)
        /\ no_char "[" pre = true /\ no_char "]" post = true.
Proof. exact (search_json_array_spec s m). Qed.

(** ** Stripping the answer does not move the array *)

Lemma space_is_not (c x : ascii) :
  is_space c = false -> is_space x = true -> Ascii.eqb x c = false.
Proof.
  intros Hc Hx. destruct (Ascii.eqb_spec x c) as [->|]; [|reflexivity].
  rewrite Hc in Hx. discriminate Hx.
Qed.

Lemma upto_last_rstrip (c : ascii) (s : string) :
  is_space c = false ->
  AgentImpl.upto_last c (rstrip s) = AgentImpl.upto_last c s.
Proof.
  intros Hc. induction s as [|x r IH]; [reflexivity|].
  rewrite rstrip_cons. cbn [AgentImpl.upto_last]. rewrite <- IH.
  destruct (rstrip r) as [|y t].
  - cbn [AgentImpl.upto_last]. destruct (is_space x) eqn:Ex.
    + rewrite (space_is_not c x Hc Ex). reflexivity.
    + cbn [AgentImpl.upto_last]. reflexivity.
  - reflexivity.
Qed.

Lemma search_json_array_rstrip (s : string) :
  AgentImpl.search_json_array (rstrip s) = AgentImpl.search_json_array s.
Proof.
  induction s as [|x r IH]; [reflexivity|].
  rewrite rstrip_cons. cbn [AgentImpl.search_json_array].
  rewrite <- IH, <- (upto_last_rstrip "]" r eq_refl).
  destruct (rstrip r) as [|y t].
  - cbn [AgentImpl.search_json_array AgentImpl.upto_last].
    destruct (is_space x) eqn:Ex.
    + rewrite (space_is_not "[" x eq_refl Ex). reflexivity.
    + cbn [AgentImpl.search_json_array AgentImpl.upto_last]. reflexivity.
  - reflexivity.
Qed.

Lemma search_json_array_lstrip (s : string) :
  AgentImpl.search_json_array (lstrip s) = AgentImpl.search_json_array s.
Proof.
  induction s as [|x r IH]; [reflexivity|]. cbn [lstrip].
  destruct (is_space x) eqn:Ex; [|reflexivity].
  cbn [AgentImpl.search_json_array].
  rewrite (space_is_not "[" x eq_refl Ex). exact IH.
Qed.

Lemma search_json_array_strip (s : string) :
  AgentImpl.search_json_array (strip s) = AgentImpl.search_json_array s.
Proof.
  unfold strip. rewrite search_json_array_rstrip. apply search_json_array_lstrip.
Qed.

(** X19. With an API key: if the model's answer holds a ["["] and a later
    ["]"], the events are what [json.loads] reads in the span from its first
    ["["] through its last ["]"], whatever surrounds the span, and the empty
    list when [json.loads] rejects that span; they are the empty list too
    when the model call raises or the answer holds no such span.  Stripping
    the answer first changes nothing of this. *)
Theorem X19_extraction_from_answer
    (generate_content : string -> Res string)
    (json_loads : string -> Res (list Event))
    (scraped_content : odict) :
  let prompt :=
    AgentImpl.make_prompt (AgentImpl.combine_content scraped_content) in
  let extracted :=
    AgentImpl.extract_events_with_gemini (Some generate_content) json_loads
      scraped_content in
  (forall pre body post,
     generate_content prompt
     = Ok (pre +:+ String "[" (body +:+ String "]" post)) ->
     no_char "[" pre = true -> no_char "]" post = true ->
     extracted
     = match json_loads (String "[" (body +:+ String "]" EmptyString)) with
       | Ok events => events
       | Raise _ => []
       end)
  /\ (forall x, generate_content prompt = Raise x -> extracted = [])
  /\ (forall response,
        generate_content prompt = Ok response ->
        AgentImpl.search_json_array response = None -> extracted = []).
Proof.
  intros prompt extracted. subst extracted.
  unfold AgentImpl.extract_events_with_gemini, AgentImpl.extract_events_body.
  cbv zeta. fold prompt. split; [|split].
  - intros pre body post Hg H1 H2. rewrite Hg. cbn [bind].
    rewrite search_json_array_strip.
    rewrite (proj2 (search_json_array_spec _
                      (String "[" (body +:+ String "]" EmptyString))))
      by (exists pre, body, post; auto).
    destruct (json_loads _); reflexivity.
  - intros x ->. reflexivity.
  - intros response Hg Hn. rewrite Hg. cbn [bind].
    rewrite search_json_array_strip, Hn. reflexivity.
Qed.

Lemma X19_witness :
  AgentImpl.extract_events_with_gemini
    (Some (fun _ => Ok "Here you are: [1] and [2]. Bye"%string))
    (fun s => if String.eqb s "[1] and [2]" then Ok [∅] else Raise ValueError)
    []
  = [∅].
Proof.
  pose proof (X19_extraction_from_answer
                (fun _ => Ok "Here you are: [1] and [2]. Bye"%string)
                (fun s => if String.eqb s "[1] and [2]" then Ok [∅]
                          else Raise ValueError)
                []) as H.
  cbv zeta in H. destruct H as [H _].
  exact (H "Here you are: "%string "1] and [2"%string ". Bye"%string
           eq_refl eq_refl eq_refl).
Defined.

(** ** The text given to the model *)

Lemma length_substring_0 (n : nat) (s : string) :
  String.length (String.substring 0 n s) = Nat.min n (String.length s).
Proof.
  revert n. induction s as [|c r IH]; intros [|n]; try reflexivity.
  simpl. rewrite IH. reflexivity.
Qed.

Lemma substring_0_prefix (n : nat) (s : string) :
  exists rest, s = String.substring 0 n s +:+ rest.
Proof.
  revert n. induction s as [|c r IH]; intros [|n].
  - exists EmptyString. reflexivity.
  - exists EmptyString. reflexivity.
  - exists (String c r). reflexivity.
  - destruct (IH n) as [rest H]. exists rest. simpl.
    rewrite append_cons, <- H. reflexivity.
Qed.

Lemma length_content_header (url : string) :
  String.length (AgentImpl.content_header url) = (24 + String.length url)%nat.
Proof.
  unfold AgentImpl.content_header. rewrite !length_append. simpl. lia.
Qed.

Lemma combine_content_fold (d : odict) (acc : string) :
  fold_left
    (fun combined_content '(url, content) =>
       (combined_content +:+ AgentImpl.content_header url)
       +:+ slice_to (Z.to_nat 8000) content)
    d acc
  = acc +:+ AgentImpl.combine_content d.
Proof.
  unfold AgentImpl.combine_content.
  revert acc. induction d as [|[u c] d IH]; intros acc.
  - cbn [fold_left]. rewrite append_nil_r. reflexivity.
  - cbn [fold_left]. rewrite IH, (IH (_ +:+ _)).
    rewrite append_nil_l, !append_assoc. reflexivity.
Qed.

Lemma combine_content_cons (u c : string) (d : odict) :
  AgentImpl.combine_content ((u, c) :: d)
  = AgentImpl.content_header u
    +:+ slice_to (Z.to_nat 8000) c +:+ AgentImpl.combine_content d.
Proof.
  unfold AgentImpl.combine_content at 1. cbn [fold_left].
  rewrite combine_content_fold, append_nil_l, append_assoc. reflexivity.
Qed.

(** X21. The text handed to the model takes from each scraped page its
    header and at most the first 8000 characters of its content: its length
    is the sum, over the pages, of 24, the length of the URL and the smaller
    of 8000 and the length of the content; and two scrapes whose pages agree
    on URLs and on those first 8000 characters give the same text. *)
Theorem X21_combined_content_is_cut (scraped_content : odict) :
  String.length (AgentImpl.combine_content scraped_content)
  = list_sum
      (map (fun '(url, content) =>
              (24 + String.length url
               + Nat.min (Z.to_nat 8000) (String.length content))%nat)
           scraped_content)
  /\ forall other : odict,
       map (fun '(url, content) => (url, slice_to (Z.to_nat 8000) content))
           scraped_content
       = map (fun '(url, content) => (url, slice_to (Z.to_nat 8000) content))
             other ->
       AgentImpl.combine_content scraped_content
       = AgentImpl.combine_content other.
Proof.
  split.
  - induction scraped_content as [|[u c] d IH]; [reflexivity|].
    rewrite combine_content_cons, !length_append, length_content_header.
    unfold slice_to at 1. rewrite length_substring_0, IH.
    cbn [map]. change (list_sum (?x :: ?l)) with (x + list_sum l)%nat.
    rewrite Nat.add_assoc. reflexivity.
  - induction scraped_content as [|[u c] d IH]; intros [|[u' c'] d'] H;
      try discriminate H; [reflexivity|].
    cbn [map] in H. injection H as -> Hc Hd.
    rewrite !combine_content_cons, Hc, (IH d' Hd). reflexivity.
Qed.

(** ** The choice of URLs in [main] *)

Lemma split_char_cons2 (a c : ascii) (r : string) :
  split_char a (String c r)
  = if Ascii.eqb c a then EmptyString :: split_char a r
    else cons_first c (split_char a r).
Proof. reflexivity. Qed.

Lemma split_char_first (a : ascii) (s : string) :
  exists x l, split_char a s = x :: l.
Proof.
  induction s as [|c r (x & l & IH)]; [eauto|].
  rewrite split_char_cons2, IH. destruct (Ascii.eqb c a); simpl; eauto.
Qed.

Lemma length_split_char (a : ascii) (s : string) :
  length (split_char a s) = S (count_char a s).
Proof.
  induction s as [|c r IH]; [reflexivity|].
  rewrite split_char_cons2. cbn [count_char].
  destruct (split_char_first a r) as (x & l & E). rewrite E in IH |- *.
  destruct (Ascii.eqb c a); simpl in *; lia.
Qed.

Lemma split_char_no_char (a : ascii) (s : string) :
  Forall (fun u => no_char a u = true) (split_char a s).
Proof.
  induction s as [|c r IH]; [repeat constructor|].
  rewrite split_char_cons2.
  destruct (Ascii.eqb c a) eqn:E; [constructor; [reflexivity | exact IH]|].
  destruct (split_char_first a r) as (x & l & Er). rewrite Er in IH |- *.
  simpl. inversion IH; subst. constructor; [|assumption].
  rewrite no_char_cons, Ascii.eqb_sym, E. assumption.
Qed.

Lemma join_split_char (a : ascii) (s : string) :
  join (String a EmptyString) (split_char a s) = s.
Proof.
  induction s as [|c r IH]; [reflexivity|].
  rewrite split_char_cons2.
  destruct (split_char_first a r) as (x & l & Er). rewrite Er in IH |- *.
  destruct (Ascii.eqb_spec c a) as [->|Hne].
  - rewrite join_cons2, IH, append_nil_l. reflexivity.
  - simpl cons_first. destruct l as [|y l].
    + simpl in IH |- *. rewrite IH. reflexivity.
    + rewrite join_cons2 in IH |- *. rewrite append_cons, IH. reflexivity.
Qed.

Lemma count_char_lstrip (c : ascii) (s : string) :
  is_space c = false -> count_char c (lstrip s) = count_char c s.
Proof.
  intros Hc. induction s as [|x r IH]; [reflexivity|]. cbn [lstrip].
  destruct (is_space x) eqn:Ex; [|reflexivity].
  cbn [count_char]. rewrite (space_is_not c x Hc Ex). exact IH.
Qed.

Lemma count_char_rstrip (c : ascii) (s : string) :
  is_space c = false -> count_char c (rstrip s) = count_char c s.
Proof.
  intros Hc. induction s as [|x r IH]; [reflexivity|].
  rewrite rstrip_cons. cbn [count_char]. rewrite <- IH.
  destruct (rstrip r) as [|y t].
  - destruct (is_space x) eqn:Ex.
    + rewrite (space_is_not c x Hc Ex). reflexivity.
    + reflexivity.
  - reflexivity.
Qed.

Lemma no_char_lstrip (c : ascii) (s : string) :
  no_char c s = true -> no_char c (lstrip s) = true.
Proof.
  induction s as [|x r IH]; [reflexivity|]. intros H. cbn [lstrip].
  destruct (is_space x); [|exact H].
  rewrite no_char_cons in H. apply andb_true_iff in H. tauto.
Qed.

Lemma no_char_rstrip (c : ascii) (s : string) :
  no_char c s = true -> no_char c (rstrip s) = true.
Proof.
  induction s as [|x r IH]; [reflexivity|]. intros H.
  rewrite no_char_cons in H. apply andb_true_iff in H as [Hx Hr].
  rewrite rstrip_cons. specialize (IH Hr). destruct (rstrip r).
  - destruct (is_space x); [reflexivity|]. rewrite no_char_cons, Hx. reflexivity.
  - rewrite no_char_cons, Hx. exact IH.
Qed.

Lemma no_char_strip (c : ascii) (s : string) :
  no_char c s = true -> no_char c (strip s) = true.
Proof. intros H. unfold strip. apply no_char_rstrip, no_char_lstrip, H. Qed.

Lemma strip_idem (s : string) : strip (strip s) = strip s.
Proof. apply trimmed_strip, strip_trimmed. Qed.

(** X20. The list of URLs that [main] settles on is never empty, so the
    exit on an empty list cannot be taken; its entries carry no white space
    at either end and no comma; and when something other than white space
    was typed, there is one entry more than there are commas in what was
    typed (an entry may be empty). *)
Theorem X20_urls_never_empty (typed : string) :
  AgentImpl.choose_urls typed <> []
  /\ Forall (fun url => strip url = url /\ no_char "," url = true)
            (AgentImpl.choose_urls typed)
  /\ (nonempty (strip typed) = true ->
      length (AgentImpl.choose_urls typed) = S (count_char "," typed))
  /\ (nonempty (strip typed) = false ->
      AgentImpl.choose_urls typed = AgentImpl.example_urls).
Proof.
  unfold AgentImpl.choose_urls. cbv zeta.
  destruct (nonempty (strip typed)) eqn:E.
  - split; [|split; [|split]].
    + destruct (split_char_first "," (strip typed)) as (x & l & ->). discriminate.
    + pose proof (split_char_no_char "," (strip typed)) as HF.
      rewrite List.Forall_forall in HF. apply List.Forall_forall.
      intros u Hu. apply List.in_map_iff in Hu as (v & <- & Hv).
      split; [apply strip_idem | apply no_char_strip, HF, Hv].
    + intros _. rewrite length_map, length_split_char. f_equal.
      unfold strip. rewrite count_char_rstrip, count_char_lstrip; reflexivity.
    + discriminate.
  - split; [discriminate|]. split; [repeat constructor|].
    split; [discriminate | reflexivity].
Qed.

Lemma X20_witness :
  length (AgentImpl.choose_urls " https://a.example/x , https://b.example ")
  = 2%nat.
Proof.
  destruct (X20_urls_never_empty " https://a.example/x , https://b.example ")
    as (_ & _ & H & _).
  exact (H eq_refl).
Defined.

(** ** [demo.py] *)

Lemma mock_url_returns (scraped_content : odict) :
  Demo.mock_url scraped_content
  = Ok match scraped_content with
       | [] => "demo"%string
       | (url, _) :: _ => url
       end.
Proof. destruct scraped_content as [|[u c] d]; reflexivity. Qed.

Lemma mock_events_are_added (u : string) :
  process_events (add_event_via_mcp _simulate_mcp_call) (Demo.mock_events u u)
  = Ok (mk_results 2 0).
Proof. destruct u; reflexivity. Qed.

(** X22. The demonstration agent never raises: its extractor takes the
    first key only of a non-empty mapping.  It reports its two mock events,
    both with the first URL of the list, when some scraped page has more
    than 100 characters, and nothing otherwise; with the calendar manager as
    it stands both events are added and none fails. *)
Theorem X22_demo_agent_run (page_text : string -> Res string)
    (exn_message : PyExn -> string) (urls : list string) :
  let scrape := AgentImpl.scrape_webpage page_text exn_message in
  let events :=
    match urls with
    | [] => []
    | u :: _ =>
        if existsb (fun x => substantial (scrape x)) urls
        then Demo.mock_events u u
        else []
    end in
  Demo.extract_events_with_gemini
    (AgentImpl.scrape_multiple_pages page_text exn_message urls)
  = Ok events
  /\ Demo.run_agent page_text exn_message
       (add_event_via_mcp _simulate_mcp_call) urls
     = Ok (mk_summary (length urls) (length events) (length events) 0 events).
Proof.
  intros scrape events.
  assert (Demo.extract_events_with_gemini
            (AgentImpl.scrape_multiple_pages page_text exn_message urls)
          = Ok events) as He.
  { subst events. unfold Demo.extract_events_with_gemini.
    rewrite mock_url_returns. cbn [bind].
    unfold AgentImpl.scrape_multiple_pages. fold scrape.
    rewrite any_substantial_scraped.
    destruct urls as [|u urls]; [reflexivity|].
    destruct (scrape_pages_cons scrape u urls) as [rest ->].
    cbn [AgentImpl.od_truthy andb].
    destruct (existsb _ (u :: urls)); reflexivity. }
  split; [exact He|].
  unfold Demo.run_agent. cbv zeta. rewrite He. cbn [bind].
  subst events. destruct urls as [|u rest]; [reflexivity|].
  destruct (existsb _ (u :: rest)); [|reflexivity].
  rewrite mock_events_are_added. reflexivity.
Qed.
